(** * log_precision: the three probe loops of the notebook

    The notebook [log_precision.ipynb] evaluates [log (X ** power)] for
    [power = 0, -1, -2, ...] with three logarithms ([math.log], [numpy.log]
    and [Decimal.ln]) and prints the first exponent at which the logarithm
    can no longer be taken.

    The development follows the notebook cell by cell:
    - [Py]        exceptions and the error monad of a Python statement;
    - [Float64]   [int ** int] with a negative exponent, which Python
                  evaluates on doubles, and the two double logarithms;
    - [PyDecimal] the part of the [decimal] module the third cell uses;
    - [Probe]     the [while no_error] loop, shared by the three cells;
    - [Notebook]  the four code cells, in their order;
    - [LoopFacts], [BackendFacts], [Rounding], [BaseFacts], [Claims],
      [Extras]: the proofs.

    What the libraries do is taken as follows.
    - Doubles are the binary64 numbers of [SpecFloat] (precision 53,
      [emax] 1024), and [pow] of libm returns the correctly rounded
      power.
    - The digits of a finite logarithm are not computed: the loops only
      look at whether the call raised and whether the value is minus
      infinity, so a finite value is kept as [Fin].
    - A [Decimal] power that is not exact is the correctly rounded
      quotient, written with all the digits of the precision.
    - [Decimal.ln] rounds its result to the context.  The rounding is
      not computed: what is proved about a finite logarithm is proved
      in the default context, or in a context that has room for it
      ([PyDecimal.roomy]) and does not trap [Inexact] or [Rounded]. *)

From Stdlib Require Import ZArith List Bool Lia SpecFloat FinFun.
From Stdlib Require String.
Import ListNotations.
Local Open Scope Z_scope.

(* ------------------------------------------------------------------ *)
(** * Python exceptions and results *)

Module Py.

(** The signals of the [decimal] module. *)
Inductive signal :=
| Clamped | DivisionByZero | Inexact | InvalidOperation
| Overflow | Rounded | Subnormal | Underflow.

(** The exception classes that the modelled operations raise.  A bare
    [except:] catches every class, [BaseException] included, so the
    classes the operations below never raise are listed too. *)
Inductive exn :=
| ValueError            (* math domain error *)
| OverflowError         (* int too large to convert to float *)
| ZeroDivisionError     (* 0.0 cannot be raised to a negative power *)
| TypeError
| RuntimeWarning        (* a numpy warning turned into an error *)
| DecimalException (s : signal)
| KeyboardInterrupt
| SystemExit
| Other (class_name : String.string).

(** Evaluation of an expression: a value, or a raised exception. *)
Inductive result (A : Type) :=
| Ok (a : A)
| Raise (e : exn).
Arguments Ok {A} a.
Arguments Raise {A} e.

Definition bind {A B} (r : result A) (k : A -> result B) : result B :=
  match r with
  | Ok a => k a
  | Raise e => Raise e
  end.

(** What the loops can observe of a logarithm [y]: they never read its
    digits, only whether the call raised and whether [y] is an infinity.
    A finite logarithm is kept as [Fin]. *)
Inductive logval := Fin | PosInf | NegInf | NaN.

Definition is_neg_inf (y : logval) : bool :=
  match y with NegInf => true | _ => false end.

End Py.
Import Py.

Notation "x <- r ;; k" := (Py.bind r (fun x => k))
  (at level 61, r at next level, right associativity).

(* ------------------------------------------------------------------ *)
(** * Doubles: [X ** power], [math.log], [numpy.log] *)

Module Float64.

Definition prec : Z := 53.
Definition emax : Z := 1024.

(** Values of the variable [x] in the first two cells: [10 ** 0] is the
    [int] 1, [10 ** power] for a negative [power] is a [float]. *)
Inductive pyval :=
| VInt (n : Z)
| VFloat (f : spec_float).

(** [float(n)] for an [int]: round to nearest even, [OverflowError]
    when the rounded value is out of the range of a double. *)
Definition float_of_int (n : Z) : result spec_float :=
  match binary_normalize prec emax n 0 false with
  | S754_infinity _ => Raise OverflowError
  | f => Ok f
  end.

(** The integer a double stands for, for the doubles [float_of_int]
    returns (their value is an integer). *)
Definition int_of_float (f : spec_float) : Z :=
  match f with
  | S754_finite s m e =>
      let a := if 0 <=? e then Zpos m * 2 ^ e else Zpos m / 2 ^ (- e) in
      if s then - a else a
  | _ => 0
  end.

(** A mantissa without its trailing zero bits: the same number. *)
Fixpoint trim (m : positive) (e : Z) : positive * Z :=
  match m with
  | xO p => trim p (e + 1)
  | _ => (m, e)
  end.

(** [iv ** iw] on doubles, for [iw] a negative integer [- k]
    ([float_pow] of CPython, then [pow] of libm, taken as correctly
    rounded: the quotient of 1 by the exact [k]-th power of [iv] is
    rounded once, to nearest even).  A zero base raises
    [ZeroDivisionError]; an infinite result raises [OverflowError]. *)
Definition float_pow_neg (iv : spec_float) (k : positive)
  : result spec_float :=
  match iv with
  | S754_nan => Ok S754_nan
  | S754_infinity s => Ok (S754_zero (s && Z.odd (Zpos k)))
  | S754_zero _ => Raise ZeroDivisionError
  | S754_finite s m e =>
      let '(m, e) := trim m e in
      match SFdiv prec emax (S754_finite false 1 0)
              (S754_finite (s && Z.odd (Zpos k)) (Pos.pow m k) (e * Zpos k)) with
      | S754_infinity _ => Raise OverflowError
      | r => Ok r
      end
  end.

(** [X ** power] for two [int]s: an [int] when [power >= 0]; otherwise
    both operands are converted to doubles and the result is a
    [float]. *)
Definition int_pow (X power : Z) : result pyval :=
  if 0 <=? power then Ok (VInt (X ^ power))
  else
    iv <- float_of_int X ;;
    iw <- float_of_int power ;;
    r <- float_pow_neg iv (Z.to_pos (- int_of_float iw)) ;;
    Ok (VFloat r).

(** The logarithm of a double, by the class of the argument: finite
    for a positive finite argument, NaN and plus infinity returned as
    they are; [on_zero] and [on_negative] are what the library does at a
    zero and at a negative argument (minus infinity included). *)
Definition log_of_float (on_zero on_negative : result logval)
           (f : spec_float) : result logval :=
  match f with
  | S754_nan => Ok NaN
  | S754_infinity false => Ok PosInf
  | S754_infinity true => on_negative
  | S754_zero _ => on_zero
  | S754_finite false _ _ => Ok Fin
  | S754_finite true _ _ => on_negative
  end.

(** [math.log(x)].  An [int] argument must be positive; a double
    argument that is zero or negative is a domain error, [ValueError]. *)
Definition math_log (x : pyval) : result logval :=
  match x with
  | VInt n => if 0 <? n then Ok Fin else Raise ValueError
  | VFloat f => log_of_float (Raise ValueError) (Raise ValueError) f
  end.

(** The action of the [warnings] filter in front of the filter list:
    [warnings.filterwarnings("error")] installs [ActError]; without
    it a warning is printed and the call returns. *)
Inductive warn_action := ActDefault | ActError.

(** A numpy floating-point event under numpy's default error state
    ([divide] and [invalid] set to ['warn']): a [RuntimeWarning] goes
    through the filter, and the value [v] is returned unless the filter
    turns the warning into an exception. *)
Definition np_warn (a : warn_action) (v : logval) : result logval :=
  match a with
  | ActError => Raise RuntimeWarning
  | ActDefault => Ok v
  end.

(** [numpy.log(x)] for a Python scalar.  log(0) is minus infinity with
    a divide-by-zero warning, the log of a negative number is NaN with
    an invalid-value warning.  An [int] is first converted to a
    64-bit integer array element, then to a double. *)
Definition np_log (a : warn_action) (x : pyval) : result logval :=
  match x with
  | VInt n =>
      if (- 2 ^ 63 <=? n) && (n <? 2 ^ 64) then
        log_of_float (np_warn a NegInf) (np_warn a NaN)
                     (binary_normalize prec emax n 0 false)
      else Raise TypeError
  | VFloat f => log_of_float (np_warn a NegInf) (np_warn a NaN) f
  end.

(** A double that is not NaN and has the sign [s]. *)
Definition signed (s : bool) (f : spec_float) : Prop :=
  match f with
  | S754_zero s' | S754_infinity s' | S754_finite s' _ _ => s' = s
  | S754_nan => False
  end.

(** The first bit that a rounding drops, as [SpecFloat] keeps it in a
    location: set when what is dropped is half a unit or more. *)
Definition round_bit (l : location) : bool :=
  match l with
  | loc_Exact | loc_Inexact Lt => false
  | _ => true
  end.

End Float64.

(* ------------------------------------------------------------------ *)
(** * The [decimal] module: [Decimal(X) ** power] and [Decimal.ln] *)

Module PyDecimal.

(** A [Decimal]: sign, coefficient and exponent, or a special value. *)
Inductive decimal :=
| DFinite (s : bool) (c : Z) (e : Z)
| DInfinity (s : bool)
| DNaN.

(** The fields of a context that the operations below read; rounding
    is [ROUND_HALF_EVEN] and [clamp] is 0, as in the default context. *)
Record context := {
  prec : Z;
  Emin : Z;
  Emax : Z;
  traps : signal -> bool
}.

(** [getcontext()] of a fresh interpreter: the notebook never sets a
    context. *)
Definition DefaultContext : context := {|
  prec := 28;
  Emin := -999999;
  Emax := 999999;
  traps := fun s =>
    match s with
    | InvalidOperation | DivisionByZero | Overflow => true
    | _ => false
    end
|}.

Definition Etiny (ctx : context) : Z := Emin ctx - prec ctx + 1.
Definition Etop (ctx : context) : Z := Emax ctx - prec ctx + 1.

(** [Decimal(n)] for an [int] is exact. *)
Definition of_int (n : Z) : decimal := DFinite (n <? 0) (Z.abs n) 0.

(** [context._raise_error]: a trapped signal is raised as an exception,
    the first one in the order the signals are sent; otherwise the
    operation returns [ans]. *)
Definition raise_error (ctx : context) (sigs : list signal) (ans : decimal)
  : result decimal :=
  match find (traps ctx) sigs with
  | Some s => Raise (DecimalException s)
  | None => Ok ans
  end.

(** [len(str(c))] for a coefficient [c >= 0]. *)
Fixpoint ndigits_aux (fuel : nat) (c : Z) : Z :=
  match fuel with
  | O => 0
  | S f => if c <? 10 then 1 else 1 + ndigits_aux f (c / 10)
  end.

Definition ndigits (c : Z) : Z := ndigits_aux (S (Z.to_nat (Z.log2 c))) c.

(** The quotient [n / d] rounded to an integer, half to even. *)
Definition rne (n d : Z) : Z :=
  let q := n / d in
  match 2 * (n mod d) ?= d with
  | Lt => q
  | Gt => q + 1
  | Eq => if Z.even q then q else q + 1
  end.

Definition when (b : bool) (s : signal) : list signal :=
  if b then [s] else [].

Definition overflow (ctx : context) (s : bool) : result decimal :=
  raise_error ctx [Overflow; Inexact; Rounded] (DInfinity s).

(** The end of a rounding: the coefficient [coeff] at exponent [e],
    after a carry out of the precision; the signals of [_fix]. *)
Definition finish (ctx : context) (s : bool) (coeff e : Z)
           (changed subnormal : bool) : result decimal :=
  let '(coeff, e) :=
    if prec ctx <? ndigits coeff then (coeff / 10, e + 1) else (coeff, e) in
  if Etop ctx <? e then overflow ctx s
  else
    raise_error ctx
      (when (changed && subnormal) Underflow ++ when subnormal Subnormal
       ++ when changed Inexact ++ [Rounded] ++ when (coeff =? 0) Clamped)
      (DFinite s coeff e).

(** [Decimal._fix]: the number [c * 10 ^ e] rounded to the precision
    and the exponent range of the context.  The digits dropped from
    the string of [c] are the remainder of [c] by a power of ten; a
    number with no digit left ([digits < 0]) is first replaced by
    [1 * 10 ^ (exp_min - 1)], which rounds the same way. *)
Definition fix_ (ctx : context) (s : bool) (c e : Z) : result decimal :=
  if c =? 0 then
    let new_exp := Z.min (Z.max e (Etiny ctx)) (Emax ctx) in
    raise_error ctx (when (negb (new_exp =? e)) Clamped) (DFinite s 0 new_exp)
  else
    let exp_min := ndigits c + e - prec ctx in
    if Etop ctx <? exp_min then overflow ctx s
    else
      let subnormal := exp_min <? Etiny ctx in
      let exp_min := if subnormal then Etiny ctx else exp_min in
      if e <? exp_min then
        let digits := ndigits c + e - exp_min in
        let '(c, e) := if digits <? 0 then (1, exp_min - 1) else (c, e) in
        let d := 10 ^ (exp_min - e) in
        finish ctx s (rne c d) exp_min (negb (c mod d =? 0)) subnormal
      else raise_error ctx (when subnormal Subnormal) (DFinite s c e).

(** The quotient [num / den] times [10 ^ q], correctly rounded: the
    inexact branch of [__pow__], whose result the module computes to
    within the last digit. *)
Definition round_ratio (ctx : context) (s : bool) (num den q : Z)
  : result decimal :=
  let scaled e :=
    if e <=? q then (num * 10 ^ (q - e), den) else (num, den * 10 ^ (e - q)) in
  let e1 := Z.max (Etiny ctx) (ndigits num - ndigits den + q - prec ctx) in
  let e := if fst (scaled e1) / snd (scaled e1) <? 10 ^ prec ctx
           then e1 else e1 + 1 in
  let '(n, d) := scaled e in
  let coeff := rne n d in
  finish ctx s coeff e (negb (n mod d =? 0))
         ((e =? Etiny ctx) && (coeff <? 10 ^ (prec ctx - 1))).

(** A coefficient without its trailing zeros, [xc] and [xe] of
    [_power_exact]. *)
Fixpoint strip_aux (fuel : nat) (c e : Z) : Z * Z :=
  match fuel with
  | O => (c, e)
  | S f => if (0 <? c) && (c mod 10 =? 0) then strip_aux f (c / 10) (e + 1)
           else (c, e)
  end.

Definition strip (c e : Z) : Z * Z := strip_aux (Z.to_nat (Z.log2 c)) c e.

(** [x ** n] for an [int] exponent [n] ([Decimal.__pow__], where
    [Decimal(n)] is exact).  A power of ten with a negative exponent is
    exact with coefficient 1, then fixed; any other quotient is
    rounded. *)
Definition pow (ctx : context) (x : decimal) (n : Z) : result decimal :=
  match x with
  | DNaN => Ok DNaN
  | DInfinity s =>
      if n =? 0 then Ok (DFinite false 1 0)
      else if 0 <? n then Ok (DInfinity (s && Z.odd n))
      else Ok (DFinite (s && Z.odd n) 0 0)
  | DFinite s c e =>
      let sign := s && Z.odd n in
      if n =? 0 then
        if c =? 0 then raise_error ctx [InvalidOperation] DNaN
        else Ok (DFinite false 1 0)
      else if c =? 0 then
        if 0 <? n then Ok (DFinite sign 0 0) else Ok (DInfinity sign)
      else if 0 <? n then fix_ ctx sign (c ^ n) (e * n)
      else
        let '(xc, xe) := strip c e in
        if xc =? 1 then fix_ ctx sign 1 (xe * n)
        else round_ratio ctx sign 1 (xc ^ (- n)) (xe * n)
  end.

(** [x.ln()]: minus infinity at zero, [InvalidOperation] for a
    negative argument, a finite number for a positive finite one.
    The library rounds a logarithm that is not 0 to the context and
    sends [Inexact] and [Rounded]; this rounding is not computed.
    [Fin] stands for the rounded number: it is what the library
    returns when the two signals are not trapped and the exponent
    range has room for the result, as in the default context, where
    the logarithm of a number between [1E-1000026] and 1 has at most
    seven digits before the point.  In a context with a small [Emax]
    the library signals [Overflow] instead, which this function does
    not show: see [roomy]. *)
Definition ln (ctx : context) (x : decimal) : result logval :=
  match x with
  | DNaN => Ok NaN
  | DInfinity false => Ok PosInf
  | DInfinity true =>
      if traps ctx InvalidOperation
      then Raise (DecimalException InvalidOperation) else Ok NaN
  | DFinite s c _ =>
      if c =? 0 then Ok NegInf
      else if s then
        if traps ctx InvalidOperation
        then Raise (DecimalException InvalidOperation) else Ok NaN
      else Ok Fin
  end.

(** The sign of a number, NaN having none. *)
Definition has_sign (s : bool) (x : decimal) : Prop :=
  match x with
  | DFinite s' _ _ | DInfinity s' => s' = s
  | DNaN => False
  end.




(** [y == Decimal("-Infinity")]. *)
Definition eq_neg_infinity (y : logval) : bool := is_neg_inf y.

End PyDecimal.

(* ------------------------------------------------------------------ *)
(** * The probe loop *)

Module Probe.

(** The variables of a cell that live across iterations, the lines the
    cell has printed (each line is a fixed sentence that ends with
    [str(power)]: the exponent is what is kept), and, as a ghost
    field, the exponents at which the logarithm has been called. *)
Record state := {
  power : Z;
  no_error : bool;
  stdout : list Z;
  calls : list Z
}.

(** [power = 0], [no_error = True]. *)
Definition initial : state :=
  {| power := 0; no_error := true; stdout := []; calls := [] |}.

(** The logarithm is being called at the current exponent. *)
Definition called (s : state) : state :=
  {| power := power s; no_error := no_error s; stdout := stdout s;
     calls := calls s ++ [power s] |}.

(** [no_error = False] and [print("... 10 ^ %s." % str(power))]. *)
Definition report (s : state) : state :=
  {| power := power s; no_error := false; stdout := stdout s ++ [power s];
     calls := calls s |}.

(** [power -= 1]. *)
Definition decrement (s : state) : state :=
  {| power := power s - 1; no_error := no_error s; stdout := stdout s;
     calls := calls s |}.

(** One iteration either reaches its last statement or is left by an
    exception that nothing catches. *)
Inductive step :=
| Next (s : state)
| Abort (e : exn) (s : state).

(** A run of the loop: it ended because [no_error] is false, it was
    left by an exception, or the iterations allowed were used up. *)
Inductive outcome :=
| Done (s : state)
| Crashed (e : exn) (s : state)
| OutOfFuel (s : state).

Definition final (o : outcome) : state :=
  match o with Done s | Crashed _ s | OutOfFuel s => s end.

Section Loop.
Context {V : Type}.
(** [x = X ** power], and the statements of the cell that take the
    logarithm of [x] and decide whether the search is over. *)
Variable pow_op : Z -> result V.
Variable attempt : V -> result bool.

(** The body of [while no_error:]. *)
Definition body (s : state) : step :=
  match pow_op (power s) with
  | Raise e => Abort e s
  | Ok x =>
      let s := called s in
      match attempt x with
      | Raise e => Abort e s
      | Ok failed => Next (decrement (if failed then report s else s))
      end
  end.

Fixpoint while (fuel : nat) (s : state) : outcome :=
  if no_error s then
    match fuel with
    | O => OutOfFuel s
    | S fuel =>
        match body s with
        | Next s' => while fuel s'
        | Abort e s' => Crashed e s'
        end
    end
  else Done s.

(** What one iteration at exponent [e] finds: [Ok true] when the
    search stops there, [Ok false] when it goes on. *)
Definition probe_at (e : Z) : result bool :=
  x <- pow_op e ;; attempt x.

End Loop.

(** Cells 2 and 3:
    [try: y = log(x)] / [except: no_error = False; print(...)]. *)
Definition try_except {V} (log_fn : V -> result logval) (x : V)
  : result bool :=
  match log_fn x with
  | Ok _ => Ok false
  | Raise _ => Ok true
  end.

(** Cell 4:
    [y = x.ln()] /
    [if y == Decimal("-Infinity"): no_error = False; print(...)]. *)
Definition check_sentinel {V} (ln : V -> result logval) (x : V)
  : result bool :=
  y <- ln x ;; Ok (PyDecimal.eq_neg_infinity y).

(** Cell 4 with its [if] statement removed: [y = x.ln()] alone.  No
    cell of the notebook is written this way; the loop is used to state
    what the test of cell 4 is needed for. *)
Definition no_check {V} (ln : V -> result logval) (x : V) : result bool :=
  y <- ln x ;; Ok false.

(** The call [log(X ** e)]. *)
Definition log_at {V} (pow_op : Z -> result V) (log_fn : V -> result logval)
           (e : Z) : result logval :=
  x <- pow_op e ;; log_fn x.

(** A call of the logarithm fails when it raises or when it returns the
    sentinel, minus infinity. *)
Definition fails (r : result logval) : bool :=
  match r with
  | Raise _ => true
  | Ok y => is_neg_inf y
  end.

Definition fails_at {V} (pow_op : Z -> result V) (log_fn : V -> result logval)
           (e : Z) : Prop :=
  exists x, pow_op e = Ok x /\ fails (log_fn x) = true.

(** The state an iteration that called the logarithm on [x] must end in:
    the call is recorded, a failure is reported with the current
    exponent, and the exponent goes down by one. *)
Definition after_call {V} (log_fn : V -> result logval) (x : V) (s : state)
  : state :=
  decrement (if fails (log_fn x) then report (called s) else called s).

(** The run has printed the exponent [b], and nothing else. *)
Definition reports (run : nat -> outcome) (b : Z) : Prop :=
  exists fuel s, run fuel = Done s /\ stdout s = [b].

Section Contract.
Context {V : Type}.
Variable pow_op : Z -> result V.
Variable log_fn : V -> result logval.
Variable attempt : V -> result bool.

(** Every iteration of a run that is still searching takes the power,
    calls the logarithm on it, and stops exactly when the call fails. *)
Definition probe_contract : Prop :=
  forall (fuel : nat) (s : state),
    while pow_op attempt fuel initial = OutOfFuel s ->
    exists x, pow_op (power s) = Ok x /\
              body pow_op attempt s = Next (after_call log_fn x s).

(** The same, for the iterations in which [X ** power] has a value. *)
Definition step_contract : Prop :=
  forall (s : state) (x : V),
    no_error s = true ->
    pow_op (power s) = Ok x ->
    body pow_op attempt s = Next (after_call log_fn x s).

(** Once [no_error] is false the loop is over: nothing more is
    evaluated. *)
Definition halts_when_reported : Prop :=
  forall (fuel : nat) (s : state),
    no_error s = false -> while pow_op attempt fuel s = Done s.

End Contract.

(** The exponents [0, -1, ..., - (n - 1)]. *)
Definition descent (n : nat) : list Z :=
  map (fun i => - Z.of_nat i) (seq 0 n).

(** The state after [k] iterations that all went on, and the state in
    which the loop ends when the iteration at [- k] is the first one to
    stop. *)
Definition searching (k : nat) : state :=
  {| power := - Z.of_nat k; no_error := true; stdout := [];
     calls := descent k |}.

Definition found (k : nat) : state :=
  {| power := - Z.of_nat k - 1; no_error := false;
     stdout := [- Z.of_nat k]; calls := descent (S k) |}.

Definition finished (o : outcome) : bool :=
  match o with OutOfFuel _ => false | _ => true end.

(** The logarithm has been called at [0, -1, ...], in this order, and
    the next call is due at [power]. *)
Definition in_order (s : state) : Prop :=
  calls s = descent (length (calls s)).

Definition aligned (s : state) : Prop :=
  in_order s /\ power s = - Z.of_nat (length (calls s)).

End Probe.

(* ------------------------------------------------------------------ *)
(** * The notebook *)

Module Notebook.
Import Probe.

(** The interpreter state that the cells share. *)
Record interpreter := {
  warnings_filter : Float64.warn_action;
  decimal_context : PyDecimal.context
}.

Definition fresh : interpreter :=
  {| warnings_filter := Float64.ActDefault;
     decimal_context := PyDecimal.DefaultContext |}.

(** Cell 1: the imports and [warnings.filterwarnings("error")]. *)
Definition setup (i : interpreter) : interpreter :=
  {| warnings_filter := Float64.ActError;
     decimal_context := decimal_context i |}.

(** The three logarithms under test, and the value of [X] in the
    notebook. *)
Inductive backend := Math | Numpy | Dec.

Definition X : Z := 10.

(** [x = X ** power] and the logarithm of each cell, for a value
    [base] of [X]. *)
Definition math_power (base : Z) : Z -> result Float64.pyval :=
  Float64.int_pow base.

Definition numpy_log (i : interpreter) : Float64.pyval -> result logval :=
  Float64.np_log (warnings_filter i).

Definition decimal_power (i : interpreter) (base : Z)
  : Z -> result PyDecimal.decimal :=
  PyDecimal.pow (decimal_context i) (PyDecimal.of_int base).

Definition decimal_ln (i : interpreter) : PyDecimal.decimal -> result logval :=
  PyDecimal.ln (decimal_context i).

(** Cell 2, cell 3 and cell 4. *)
Definition math_cell (base : Z) (fuel : nat) : outcome :=
  while (math_power base) (try_except Float64.math_log) fuel initial.

Definition numpy_cell (i : interpreter) (base : Z) (fuel : nat) : outcome :=
  while (math_power base) (try_except (numpy_log i)) fuel initial.

Definition decimal_cell (i : interpreter) (base : Z) (fuel : nat) : outcome :=
  while (decimal_power i base) (check_sentinel (decimal_ln i)) fuel initial.

Definition cell (i : interpreter) (c : backend) (base : Z) : nat -> outcome :=
  match c with
  | Math => math_cell base
  | Numpy => numpy_cell i base
  | Dec => decimal_cell i base
  end.

(** The call [log(X ** e)] of each cell, and its failure. *)
Definition cell_log (i : interpreter) (c : backend) (base e : Z)
  : result logval :=
  match c with
  | Math => log_at (math_power base) Float64.math_log e
  | Numpy => log_at (math_power base) (numpy_log i) e
  | Dec => log_at (decimal_power i base) (decimal_ln i) e
  end.

Definition cell_fails_at (i : interpreter) (c : backend) (base e : Z) : Prop :=
  match c with
  | Math => fails_at (math_power base) Float64.math_log e
  | Numpy => fails_at (math_power base) (numpy_log i) e
  | Dec => fails_at (decimal_power i base) (decimal_ln i) e
  end.

(** The double [+0.0], to which [10 ** power] underflows. *)
Definition zero : Float64.pyval := Float64.VFloat (S754_zero false).

Definition is_ok_fin (r : result logval) : bool :=
  match r with Ok Fin => true | _ => false end.

(** The check of one exponent of the first two cells, by evaluation:
    above -324 the power has a finite logarithm with [math.log] and with
    [numpy.log] under either filter; from -324 on the power is [+0.0]. *)
Definition float_check (e : Z) : bool :=
  match math_power X e with
  | Ok x =>
      if -324 <? e then
        is_ok_fin (Float64.math_log x)
        && is_ok_fin (Float64.np_log Float64.ActError x)
        && is_ok_fin (Float64.np_log Float64.ActDefault x)
      else
        match x with
        | Float64.VFloat (S754_zero false) => true
        | _ => false
        end
  | Raise _ => false
  end.

(** The check of one exponent of the first two cells, by evaluation:
    [float(e)] is the double that stands for [e]. *)
Definition exponent_check (e : Z) : bool :=
  match Float64.float_of_int e with
  | Ok iw => Float64.int_of_float iw =? e
  | Raise _ => false
  end.

(** The notebook run from the top: the outcome of each cell. *)
Definition run (fuel : nat) : outcome * outcome * outcome :=
  let i := setup fresh in
  (math_cell X fuel, numpy_cell i X fuel, decimal_cell i X fuel).

End Notebook.

(* ------------------------------------------------------------------ *)
(** * Facts about the loop, for any exponentiation and any logarithm *)

Module LoopFacts.
Import Probe.

(** After a step of [while] from [searching i], the state is shown
    field by field: fold it back. *)
Ltac fold_searching i :=
  change {| power := - Z.of_nat i; no_error := true; stdout := [];
            calls := descent i |} with (searching i).

Lemma descent_S (k : nat) : descent (S k) = descent k ++ [- Z.of_nat k].
Proof.
  unfold descent. rewrite seq_S, map_app. reflexivity.
Qed.

Lemma descent_length (k : nat) : length (descent k) = k.
Proof.
  unfold descent. rewrite length_map, length_seq. reflexivity.
Qed.

Lemma descent_nth (k i : nat) :
  (i < k)%nat -> nth_error (descent k) i = Some (- Z.of_nat i).
Proof.
  intros Hi. unfold descent.
  rewrite nth_error_map, nth_error_seq.
  destruct (Nat.ltb_spec i k) as [_ | Hge]; [reflexivity | lia].
Qed.

Lemma descent_NoDup (k : nat) : NoDup (descent k).
Proof.
  unfold descent. apply Injective_map_NoDup.
  - intros a b Hab. lia.
  - apply seq_NoDup.
Qed.

Lemma searching_next (k : nat) :
  decrement (called (searching k)) = searching (S k).
Proof.
  unfold decrement, called, searching; cbn [power no_error stdout calls].
  rewrite descent_S. f_equal. lia.
Qed.

Lemma searching_stop (k : nat) :
  decrement (report (called (searching k))) = found k.
Proof.
  unfold decrement, report, called, searching, found;
    cbn [power no_error stdout calls].
  rewrite descent_S. reflexivity.
Qed.

Section Loop.
Context {V : Type}.
Variable pow_op : Z -> result V.
Variable attempt : V -> result bool.

Local Abbreviation body := (Probe.body pow_op attempt).
Local Abbreviation while := (Probe.while pow_op attempt).
Local Abbreviation probe_at := (Probe.probe_at pow_op attempt).

Lemma body_probe_at (s : state) (failed : bool) :
  probe_at (power s) = Ok failed ->
  body s = Next (decrement (if failed then report (called s) else called s)).
Proof.
  unfold Probe.probe_at, Probe.body, bind.
  destruct (pow_op (power s)) as [x | e]; [| discriminate].
  intros ->. reflexivity.
Qed.

Lemma body_next_inv (s s' : state) :
  body s = Next s' ->
  exists failed, probe_at (power s) = Ok failed /\
    s' = decrement (if failed then report (called s) else called s).
Proof.
  unfold Probe.probe_at, Probe.body, bind.
  destruct (pow_op (power s)) as [x | e]; [| discriminate].
  destruct (attempt x) as [failed | e]; [| discriminate].
  intros [= <-]. exists failed. split; reflexivity.
Qed.

(** Iterations that go on take the loop from [searching i] to
    [searching (i + n)]. *)
Lemma while_searching (n : nat) : forall (i fuel : nat),
  (forall j, (i <= j < i + n)%nat -> probe_at (- Z.of_nat j) = Ok false) ->
  while (n + fuel) (searching i) = while fuel (searching (i + n)).
Proof.
  induction n as [| n IH]; intros i fuel Hgo.
  - rewrite Nat.add_0_r. reflexivity.
  - cbn [Nat.add Probe.while searching no_error].
    fold_searching i.
    rewrite (body_probe_at (searching i) false) by (apply Hgo; lia).
    rewrite searching_next, IH.
    + f_equal. f_equal. lia.
    + intros j Hj. apply Hgo. lia.
Qed.

(** The first iteration that stops ends the loop in [found k]. *)
Lemma while_found (k fuel : nat) :
  (forall j, (j < k)%nat -> probe_at (- Z.of_nat j) = Ok false) ->
  probe_at (- Z.of_nat k) = Ok true ->
  while (k + S fuel) initial = Done (found k).
Proof.
  intros Hgo Hstop.
  change initial with (searching 0).
  rewrite while_searching by (intros j Hj; apply Hgo; lia).
  cbn [Nat.add Probe.while searching no_error].
  fold_searching k.
  rewrite (body_probe_at (searching k) true) by exact Hstop.
  rewrite searching_stop. destruct fuel; reflexivity.
Qed.

(** A loop in which every iteration goes on uses up any fuel. *)
Lemma while_forever (fuel : nat) :
  (forall j, (j < fuel)%nat -> probe_at (- Z.of_nat j) = Ok false) ->
  while fuel initial = OutOfFuel (searching fuel).
Proof.
  intros Hgo.
  change initial with (searching 0).
  rewrite <- (Nat.add_0_r fuel) at 1.
  rewrite while_searching by (intros j Hj; apply Hgo; lia).
  reflexivity.
Qed.

(** A loop that ends was stopped by the first iteration that does
    not go on. *)
Lemma while_done_inv (fuel : nat) : forall (i : nat) (s : state),
  while fuel (searching i) = Done s ->
  exists k, (i <= k)%nat /\ s = found k /\
    (forall j, (i <= j < k)%nat -> probe_at (- Z.of_nat j) = Ok false) /\
    probe_at (- Z.of_nat k) = Ok true.
Proof.
  induction fuel as [| fuel IH]; intros i s; cbn [Probe.while searching no_error].
  - discriminate.
  - fold_searching i.
    destruct (body (searching i)) as [s' | e s'] eqn:Hb; [| discriminate].
    apply body_next_inv in Hb. destruct Hb as [failed [Hp ->]].
    destruct failed.
    + rewrite searching_stop. intros Hw.
      destruct fuel; cbn in Hw; injection Hw as <-;
        (exists i; repeat split; [lia | intros j Hj; lia | exact Hp]).
    + rewrite searching_next. intros Hw.
      apply IH in Hw. destruct Hw as [k [Hk [-> [Hgo Hstop]]]].
      exists k. repeat split; [lia | | exact Hstop].
      intros j Hj. destruct (Nat.eq_dec j i) as [-> | Hne]; [exact Hp |].
      apply Hgo. lia.
Qed.

(** More fuel does not change a run that has ended. *)
Lemma while_more_fuel (fuel : nat) : forall (s : state) (extra : nat),
  finished (while fuel s) = true ->
  while (fuel + extra) s = while fuel s.
Proof.
  induction fuel as [| fuel IH]; intros s extra; cbn [Nat.add Probe.while].
  - destruct (no_error s) eqn:Hn.
    + discriminate.
    + intros _. destruct extra; cbn [Probe.while]; rewrite Hn; reflexivity.
  - destruct (no_error s); [| reflexivity].
    destruct (body s) as [s' | e s']; [apply IH | reflexivity].
Qed.

Lemma while_deterministic (f1 f2 : nat) (s : state) :
  finished (while f1 s) = true -> finished (while f2 s) = true ->
  while f1 s = while f2 s.
Proof.
  intros H1 H2.
  rewrite <- (while_more_fuel f1 s f2 H1), <- (while_more_fuel f2 s f1 H2).
  f_equal. lia.
Qed.

Lemma called_in_order (s : state) : aligned s -> in_order (called s).
Proof.
  intros [Ho Hp]. unfold in_order, called in *; cbn [calls power] in *.
  rewrite length_app, Nat.add_1_r, descent_S, <- Ho, Hp. reflexivity.
Qed.

Lemma body_aligned (s : state) :
  aligned s ->
  match body s with
  | Next s' => aligned s'
  | Abort _ s' => in_order s'
  end.
Proof.
  intros Ha. pose proof (called_in_order s Ha) as Hc.
  unfold Probe.body.
  destruct (pow_op (power s)) as [x | e]; [| exact (proj1 Ha)].
  destruct (attempt x) as [failed | e]; [| exact Hc].
  destruct Ha as [_ Hp].
  destruct failed; (split; [exact Hc |]);
    cbn [decrement report called power calls];
    rewrite length_app, Nat.add_1_r, Hp; lia.
Qed.

Lemma while_in_order (fuel : nat) : forall (s : state),
  aligned s -> in_order (final (while fuel s)).
Proof.
  induction fuel as [| fuel IH]; intros s Ha; cbn [Probe.while].
  - destruct (no_error s); exact (proj1 Ha).
  - destruct (no_error s); [| exact (proj1 Ha)].
    pose proof (body_aligned s Ha) as Hb.
    destruct (body s) as [s' | e s']; [apply IH; exact Hb | exact Hb].
Qed.

Lemma while_done_unique (k : nat) :
  (forall j, (j < k)%nat -> probe_at (- Z.of_nat j) = Ok false) ->
  probe_at (- Z.of_nat k) = Ok true ->
  forall (fuel : nat) (s : state), while fuel initial = Done s -> s = found k.
Proof.
  intros Hgo Hstop fuel s Hw.
  change initial with (searching 0) in Hw.
  apply while_done_inv in Hw. destruct Hw as [k' [_ [-> [Hgo' Hstop']]]].
  destruct (Nat.lt_trichotomy k' k) as [Hlt | [-> | Hgt]].
  - rewrite (Hgo k' Hlt) in Hstop'. discriminate.
  - reflexivity.
  - rewrite Hgo' in Hstop by lia. discriminate.
Qed.

(** A run that is still searching has met no iteration that stops. *)
Lemma while_searching_inv (fuel : nat) : forall (i : nat) (s : state),
  while fuel (searching i) = OutOfFuel s ->
  exists k, (i <= k)%nat /\ s = searching k /\
    (forall j, (i <= j < k)%nat -> probe_at (- Z.of_nat j) = Ok false).
Proof.
  induction fuel as [| fuel IH]; intros i s; cbn [Probe.while searching no_error].
  - intros [= <-]. exists i. repeat split; [lia | intros j Hj; lia].
  - fold_searching i.
    destruct (body (searching i)) as [s' | e s'] eqn:Hb; [| discriminate].
    apply body_next_inv in Hb. destruct Hb as [failed [Hp ->]].
    destruct failed.
    + rewrite searching_stop. destruct fuel; discriminate.
    + rewrite searching_next. intros Hw.
      apply IH in Hw. destruct Hw as [k [Hk [-> Hgo]]].
      exists k. repeat split; [lia |].
      intros j Hj. destruct (Nat.eq_dec j i) as [-> | Hne]; [exact Hp |].
      apply Hgo. lia.
Qed.

(** A loop is only left by an exception of one of its iterations. *)
Lemma while_crashed_inv (fuel : nat) : forall (s0 s' : state) (e : exn),
  while fuel s0 = Crashed e s' -> exists s, body s = Abort e s'.
Proof.
  induction fuel as [| fuel IH]; intros s0 s' e; cbn [Probe.while].
  - destruct (no_error s0); discriminate.
  - destruct (no_error s0); [| discriminate].
    destruct (body s0) as [s1 | e1 s1] eqn:Hb.
    + apply IH.
    + intros [= <- <-]. exists s0. exact Hb.
Qed.

Lemma while_halted (fuel : nat) (s : state) :
  no_error s = false -> while fuel s = Done s.
Proof.
  intros Hn. destruct fuel; cbn [Probe.while]; rewrite Hn; reflexivity.
Qed.

End Loop.

(** The contract of the iterations holds along a whole run when the
    power has a value at every exponent the run reaches. *)
Lemma contract_of_steps {V} (pow_op : Z -> result V)
      (log_fn : V -> result logval) (attempt : V -> result bool) :
  step_contract pow_op log_fn attempt ->
  (forall k, (forall j, (j < k)%nat ->
                probe_at pow_op attempt (- Z.of_nat j) = Ok false) ->
             exists x, pow_op (- Z.of_nat k) = Ok x) ->
  probe_contract pow_op log_fn attempt.
Proof.
  intros Hstep Hpow fuel s Hw.
  change initial with (searching 0) in Hw.
  apply while_searching_inv in Hw. destruct Hw as [k [_ [-> Hgo]]].
  destruct (Hpow k) as [x Hx]; [intros j Hj; apply Hgo; lia |].
  exists x. split; [exact Hx |].
  apply Hstep; [reflexivity | exact Hx].
Qed.

(** In a [try]/[except] cell only the power can leave the loop. *)
Lemma try_except_abort {V} (pow_op : Z -> result V)
      (log_fn : V -> result logval) (s s' : state) (e : exn) :
  body pow_op (try_except log_fn) s = Abort e s' ->
  s' = s /\ pow_op (power s) = Raise e.
Proof.
  unfold body, try_except.
  destruct (pow_op (power s)) as [x | e0].
  - destruct (log_fn x); discriminate.
  - intros [= <- <-]. split; reflexivity.
Qed.

Lemma initial_aligned : aligned initial.
Proof. split; reflexivity. Qed.

End LoopFacts.

(* ------------------------------------------------------------------ *)
(** * Facts about the three logarithms and the two exponentiations *)

Module BackendFacts.
Import Probe Notebook.

Lemma forallb_descent (P : Z -> bool) (n : nat) :
  forallb P (descent n) = true ->
  forall j, (j < n)%nat -> P (- Z.of_nat j) = true.
Proof.
  intros Hall j Hj. rewrite forallb_forall in Hall. apply Hall.
  unfold descent. apply in_map_iff. exists j. split; [reflexivity |].
  apply in_seq. lia.
Qed.

Lemma log_at_inv {V} (pow_op : Z -> result V) (log_fn : V -> result logval)
      (e : Z) (y : logval) :
  log_at pow_op log_fn e = Ok y ->
  exists x, pow_op e = Ok x /\ log_fn x = Ok y.
Proof.
  unfold log_at, bind. destruct (pow_op e) as [x | ex]; [| discriminate].
  intros H. exists x. split; [reflexivity | exact H].
Qed.

(** The three ways a cell turns a logarithm into a verdict. *)
Lemma try_except_goes_on {V} (pow_op : Z -> result V)
      (log_fn : V -> result logval) (e : Z) (y : logval) :
  log_at pow_op log_fn e = Ok y ->
  probe_at pow_op (try_except log_fn) e = Ok false.
Proof.
  intros H. apply log_at_inv in H. destruct H as [x [Hx Hy]].
  unfold probe_at, try_except, bind. rewrite Hx, Hy. reflexivity.
Qed.

Lemma try_except_stops {V} (pow_op : Z -> result V)
      (log_fn : V -> result logval) (e : Z) (x : V) (ex : exn) :
  pow_op e = Ok x -> log_fn x = Raise ex ->
  probe_at pow_op (try_except log_fn) e = Ok true.
Proof.
  intros Hx Hy. unfold probe_at, try_except, bind. rewrite Hx, Hy. reflexivity.
Qed.

Lemma check_sentinel_verdict {V} (pow_op : Z -> result V)
      (ln : V -> result logval) (e : Z) (x : V) (y : logval) :
  pow_op e = Ok x -> ln x = Ok y ->
  probe_at pow_op (check_sentinel ln) e = Ok (is_neg_inf y).
Proof.
  intros Hx Hy. unfold probe_at, check_sentinel, bind. rewrite Hx, Hy.
  reflexivity.
Qed.

(** ** Doubles *)

(** [10 ** -1] is the double nearest to 0.1, [10 ** -323] is twice the
    smallest positive double, and half of the smallest positive double
    rounds to [+0.0]. *)
Example ten_to_minus_1 :
  Float64.int_pow 10 (-1)
  = Ok (Float64.VFloat (S754_finite false 7205759403792794 (-56))).
Proof. vm_compute. reflexivity. Qed.

Example ten_to_minus_323 :
  Float64.int_pow 10 (-323) = Ok (Float64.VFloat (S754_finite false 2 (-1074))).
Proof. vm_compute. reflexivity. Qed.

Example two_to_minus_1075 : Float64.int_pow 2 (-1075) = Ok zero.
Proof. vm_compute. reflexivity. Qed.

Example zero_to_minus_1 : Float64.int_pow 0 (-1) = Raise ZeroDivisionError.
Proof. vm_compute. reflexivity. Qed.

Lemma is_ok_fin_spec (r : result logval) : is_ok_fin r = true -> r = Ok Fin.
Proof.
  destruct r as [[] | e]; (discriminate || reflexivity).
Qed.

(** The exponents from 0 down to -399, each checked by evaluation. *)
Lemma float_checked : forallb float_check (descent 400) = true.
Proof. vm_compute. reflexivity. Qed.

Lemma float_range (j : nat) :
  (j < 324)%nat ->
  exists x, math_power X (- Z.of_nat j) = Ok x /\
    Float64.math_log x = Ok Fin /\
    Float64.np_log Float64.ActError x = Ok Fin /\
    Float64.np_log Float64.ActDefault x = Ok Fin.
Proof.
  intros Hj.
  assert (H : float_check (- Z.of_nat j) = true)
    by (apply (forallb_descent _ _ float_checked); lia).
  unfold float_check in H.
  destruct (math_power X (- Z.of_nat j)) as [x | e]; [| discriminate].
  destruct (Z.ltb_spec (-324) (- Z.of_nat j)) as [_ | Hle]; [| lia].
  apply andb_prop in H. destruct H as [H H3].
  apply andb_prop in H. destruct H as [H1 H2].
  exists x. split; [reflexivity |].
  repeat split; apply is_ok_fin_spec; assumption.
Qed.

Lemma float_underflow (j : nat) :
  (324 <= j < 400)%nat -> math_power X (- Z.of_nat j) = Ok zero.
Proof.
  intros Hj.
  assert (H : float_check (- Z.of_nat j) = true)
    by (apply (forallb_descent _ _ float_checked); lia).
  unfold float_check in H.
  destruct (math_power X (- Z.of_nat j)) as [x | e]; [| discriminate].
  destruct (Z.ltb_spec (-324) (- Z.of_nat j)) as [Hlt | _]; [lia |].
  destruct x as [n | [[] | | | ]]; try discriminate. reflexivity.
Qed.

(** The two double logarithms never return minus infinity when the
    filter turns warnings into errors: they fail by raising. *)
Lemma math_log_not_sentinel (x : Float64.pyval) (y : logval) :
  Float64.math_log x = Ok y -> is_neg_inf y = false.
Proof.
  destruct x as [n | f]; cbn [Float64.math_log].
  - destruct (0 <? n); [intros [= <-]; reflexivity | discriminate].
  - destruct f as [s | [] | | [] m e]; cbn [Float64.log_of_float];
      (discriminate || (intros [= <-]; reflexivity)).
Qed.

Lemma log_of_float_error_not_sentinel (f : spec_float) (y : logval) :
  Float64.log_of_float (Float64.np_warn Float64.ActError NegInf)
                       (Float64.np_warn Float64.ActError NaN) f = Ok y ->
  is_neg_inf y = false.
Proof.
  destruct f as [s | [] | | [] m e]; cbn [Float64.log_of_float Float64.np_warn];
    (discriminate || (intros [= <-]; reflexivity)).
Qed.

Lemma np_log_error_not_sentinel (x : Float64.pyval) (y : logval) :
  Float64.np_log Float64.ActError x = Ok y -> is_neg_inf y = false.
Proof.
  destruct x as [n | f]; cbn [Float64.np_log].
  - destruct ((- 2 ^ 63 <=? n) && (n <? 2 ^ 64)); [| discriminate].
    apply log_of_float_error_not_sentinel.
  - apply log_of_float_error_not_sentinel.
Qed.

(** A [try]/[except] cell whose logarithm never returns the sentinel
    stops exactly when the call fails. *)
Lemma try_except_contract {V} (pow_op : Z -> result V)
      (log_fn : V -> result logval) :
  (forall x y, log_fn x = Ok y -> is_neg_inf y = false) ->
  step_contract pow_op log_fn (try_except log_fn).
Proof.
  intros Hlog s x _ Hx. unfold body, after_call, try_except, fails.
  rewrite Hx. destruct (log_fn x) as [y | ex] eqn:Hy; [| reflexivity].
  rewrite (Hlog x y Hy). reflexivity.
Qed.

(** ** Decimals *)

Example decimal_ten_to_minus_5 :
  PyDecimal.pow PyDecimal.DefaultContext (PyDecimal.of_int 10) (-5)
  = Ok (PyDecimal.DFinite false 1 (-5)).
Proof. vm_compute. reflexivity. Qed.

Example decimal_third :
  PyDecimal.pow PyDecimal.DefaultContext (PyDecimal.of_int 3) (-1)
  = Ok (PyDecimal.DFinite false 3333333333333333333333333333 (-28)).
Proof. vm_compute. reflexivity. Qed.

Example decimal_two_to_100 :
  PyDecimal.pow PyDecimal.DefaultContext (PyDecimal.of_int 2) 100
  = Ok (PyDecimal.DFinite false 1267650600228229401496703205 3).
Proof. vm_compute. reflexivity. Qed.

Lemma fix_one (e : Z) :
  e <= 0 ->
  PyDecimal.fix_ PyDecimal.DefaultContext false 1 e =
    Ok (if -1000026 <=? e then PyDecimal.DFinite false 1 e
        else PyDecimal.DFinite false 0 (-1000026)).
Proof.
  intros He. unfold PyDecimal.fix_.
  change (1 =? 0) with false. cbv iota.
  change (PyDecimal.ndigits 1) with 1.
  change (PyDecimal.prec PyDecimal.DefaultContext) with 28.
  change (PyDecimal.Etop PyDecimal.DefaultContext) with 999972.
  change (PyDecimal.Etiny PyDecimal.DefaultContext) with (-1000026).
  destruct (Z.ltb_spec 999972 (1 + e - 28)) as [Hov | _]; [lia |].
  destruct (Z.leb_spec (-1000026) e) as [Hin | Hout].
  - destruct (Z.ltb_spec (1 + e - 28) (-1000026)) as [Hsub | Hnorm].
    + destruct (Z.ltb_spec e (-1000026)); [lia | reflexivity].
    + destruct (Z.ltb_spec e (1 + e - 28)); [lia | reflexivity].
  - destruct (Z.ltb_spec (1 + e - 28) (-1000026)) as [_ | Hnorm]; [| lia].
    destruct (Z.ltb_spec e (-1000026)) as [_ | ?]; [| lia].
    destruct (Z.ltb_spec (1 + e - -1000026) 0) as [Hneg | Hz].
    + change (-1000026 - (-1000026 - 1)) with 1. reflexivity.
    + replace e with (-1000027) by lia. reflexivity.
Qed.

(** [Decimal(10) ** (- n)] in the default context: exact down to
    [1E-1000026], zero below. *)
Lemma pow_ten (n : Z) :
  0 <= n ->
  PyDecimal.pow PyDecimal.DefaultContext (PyDecimal.of_int 10) (- n) =
    Ok (if n <=? 1000026 then PyDecimal.DFinite false 1 (- n)
        else PyDecimal.DFinite false 0 (-1000026)).
Proof.
  intros Hn. unfold PyDecimal.pow, PyDecimal.of_int.
  change (10 <? 0) with false. change (Z.abs 10) with 10.
  cbn [andb]. change (10 =? 0) with false. cbv iota.
  destruct (Z.eqb_spec (- n) 0) as [Hz | Hnz].
  - replace n with 0 by lia. reflexivity.
  - destruct (Z.ltb_spec 0 (- n)) as [? | _]; [lia |].
    change (PyDecimal.strip 10 0) with (1, 1). cbv iota beta.
    change (1 =? 1) with true. cbv iota.
    rewrite fix_one by lia.
    replace (1 * - n) with (- n) by lia.
    destruct (Z.leb_spec (-1000026) (- n)), (Z.leb_spec n 1000026);
      try lia; reflexivity.
Qed.

Lemma decimal_range (n : Z) :
  0 <= n <= 1000026 ->
  log_at (decimal_power (setup fresh) X) (decimal_ln (setup fresh)) (- n) = Ok Fin.
Proof.
  intros Hn. unfold log_at, decimal_power, decimal_ln, X.
  cbn [decimal_context setup fresh]. rewrite pow_ten by lia.
  destruct (Z.leb_spec n 1000026); [reflexivity | lia].
Qed.

Lemma decimal_underflow (n : Z) :
  1000027 <= n ->
  decimal_power (setup fresh) X (- n) = Ok (PyDecimal.DFinite false 0 (-1000026)).
Proof.
  intros Hn. unfold decimal_power, X.
  cbn [decimal_context setup fresh]. rewrite pow_ten by lia.
  destruct (Z.leb_spec n 1000026); [lia | reflexivity].
Qed.

Lemma raise_error_ok (ctx : PyDecimal.context) (sigs : list signal)
      (ans x : PyDecimal.decimal) :
  PyDecimal.raise_error ctx sigs ans = Ok x -> x = ans.
Proof.
  unfold PyDecimal.raise_error.
  destruct (find (PyDecimal.traps ctx) sigs); [discriminate |].
  intros [= <-]. reflexivity.
Qed.

Lemma finish_sign (ctx : PyDecimal.context) (s : bool) (coeff e : Z)
      (changed subnormal : bool) (x : PyDecimal.decimal) :
  PyDecimal.finish ctx s coeff e changed subnormal = Ok x -> PyDecimal.has_sign s x.
Proof.
  unfold PyDecimal.finish, PyDecimal.overflow.
  destruct (PyDecimal.prec ctx <? PyDecimal.ndigits coeff);
    match goal with |- context [if ?b then _ else _] => destruct b end;
    intros H; apply raise_error_ok in H; subst x; reflexivity.
Qed.

Lemma fix_sign (ctx : PyDecimal.context) (s : bool) (c e : Z)
      (x : PyDecimal.decimal) :
  PyDecimal.fix_ ctx s c e = Ok x -> PyDecimal.has_sign s x.
Proof.
  unfold PyDecimal.fix_, PyDecimal.overflow.
  destruct (c =? 0).
  { intros H; apply raise_error_ok in H; subst x; reflexivity. }
  destruct (PyDecimal.Etop ctx <? PyDecimal.ndigits c + e - PyDecimal.prec ctx).
  { intros H; apply raise_error_ok in H; subst x; reflexivity. }
  match goal with |- context [if e <? ?m then _ else _] => destruct (e <? m) end.
  - match goal with |- context [if ?b then (1, _) else _] => destruct b end;
      apply finish_sign.
  - intros H; apply raise_error_ok in H; subst x; reflexivity.
Qed.

Lemma round_ratio_sign (ctx : PyDecimal.context) (s : bool) (num den q : Z)
      (x : PyDecimal.decimal) :
  PyDecimal.round_ratio ctx s num den q = Ok x -> PyDecimal.has_sign s x.
Proof.
  unfold PyDecimal.round_ratio.
  match goal with |- context [let '(n, d) := ?p in _] => destruct p as [n d] end.
  apply finish_sign.
Qed.

(** A power of a base that is at least 2 is never negative, and never
    NaN. *)
Lemma pow_sign (ctx : PyDecimal.context) (X e : Z) (x : PyDecimal.decimal) :
  2 <= X ->
  PyDecimal.pow ctx (PyDecimal.of_int X) e = Ok x -> PyDecimal.has_sign false x.
Proof.
  intros HX. unfold PyDecimal.pow, PyDecimal.of_int.
  destruct (Z.ltb_spec X 0) as [? | _]; [lia |]. cbn [andb].
  destruct (Z.eqb_spec (Z.abs X) 0) as [? | _]; [lia |].
  destruct (e =? 0); [intros [= <-]; reflexivity |].
  destruct (0 <? e); [apply fix_sign |].
  destruct (PyDecimal.strip (Z.abs X) 0) as [xc xe].
  destruct (xc =? 1); [apply fix_sign | apply round_ratio_sign].
Qed.

(** In the default context the logarithm of such a power does not
    raise. *)
Lemma ln_of_nonnegative (x : PyDecimal.decimal) :
  PyDecimal.has_sign false x ->
  exists y, PyDecimal.ln PyDecimal.DefaultContext x = Ok y.
Proof.
  destruct x as [s c e | s |]; cbn [PyDecimal.has_sign PyDecimal.ln].
  - intros ->. destruct (c =? 0); eexists; reflexivity.
  - intros ->. eexists; reflexivity.
  - intros [].
Qed.

Lemma check_sentinel_contract (X : Z) :
  2 <= X ->
  step_contract
    (PyDecimal.pow PyDecimal.DefaultContext (PyDecimal.of_int X))
    (PyDecimal.ln PyDecimal.DefaultContext)
    (check_sentinel (PyDecimal.ln PyDecimal.DefaultContext)).
Proof.
  intros HX s x _ Hx. unfold body, after_call, check_sentinel, fails, bind.
  rewrite Hx.
  destruct (ln_of_nonnegative x (pow_sign PyDecimal.DefaultContext X _ x HX Hx))
    as [y Hy].
  rewrite Hy. reflexivity.
Qed.

(** ** The three cells of the notebook *)

Lemma math_goes_on (j : nat) :
  (j < 324)%nat ->
  probe_at (math_power X) (try_except Float64.math_log) (- Z.of_nat j) = Ok false.
Proof.
  intros Hj. destruct (float_range j Hj) as [x [Hx [Hm _]]].
  apply (try_except_goes_on _ _ _ Fin). unfold log_at, bind. rewrite Hx. exact Hm.
Qed.

Lemma math_stops :
  probe_at (math_power X) (try_except Float64.math_log) (- Z.of_nat 324) = Ok true.
Proof.
  apply (try_except_stops _ _ _ zero ValueError).
  - apply (float_underflow 324). lia.
  - reflexivity.
Qed.

Lemma numpy_goes_on (j : nat) :
  (j < 324)%nat ->
  probe_at (math_power X) (try_except (numpy_log (setup fresh))) (- Z.of_nat j)
  = Ok false.
Proof.
  intros Hj. destruct (float_range j Hj) as [x [Hx [_ [Hn _]]]].
  apply (try_except_goes_on _ _ _ Fin). unfold log_at, bind. rewrite Hx. exact Hn.
Qed.

Lemma numpy_stops :
  probe_at (math_power X) (try_except (numpy_log (setup fresh))) (- Z.of_nat 324)
  = Ok true.
Proof.
  apply (try_except_stops _ _ _ zero RuntimeWarning).
  - apply (float_underflow 324). lia.
  - reflexivity.
Qed.

(** Without the filter, [numpy.log] returns at [+0.0] and the loop goes
    on. *)
Lemma numpy_unfiltered_goes_on (j : nat) :
  (j < 400)%nat ->
  probe_at (math_power X) (try_except (numpy_log fresh)) (- Z.of_nat j) = Ok false.
Proof.
  intros Hj. destruct (Nat.lt_ge_cases j 324) as [Hlt | Hge].
  - destruct (float_range j Hlt) as [x [Hx [_ [_ Hn]]]].
    apply (try_except_goes_on _ _ _ Fin). unfold log_at, bind. rewrite Hx. exact Hn.
  - apply (try_except_goes_on _ _ _ NegInf). unfold log_at, bind.
    rewrite float_underflow by lia. reflexivity.
Qed.

Lemma decimal_goes_on (j : nat) :
  (j < Z.to_nat 1000027)%nat ->
  probe_at (decimal_power (setup fresh) X) (check_sentinel (decimal_ln (setup fresh)))
           (- Z.of_nat j) = Ok false.
Proof.
  intros Hj.
  assert (H : log_at (decimal_power (setup fresh) X) (decimal_ln (setup fresh))
                     (- Z.of_nat j) = Ok Fin) by (apply decimal_range; lia).
  apply log_at_inv in H. destruct H as [x [Hx Hy]].
  apply (check_sentinel_verdict _ _ _ x Fin Hx Hy).
Qed.

Lemma decimal_stops :
  probe_at (decimal_power (setup fresh) X) (check_sentinel (decimal_ln (setup fresh)))
           (- Z.of_nat (Z.to_nat 1000027)) = Ok true.
Proof.
  apply (check_sentinel_verdict _ _ _ (PyDecimal.DFinite false 0 (-1000026)) NegInf).
  - apply decimal_underflow. lia.
  - reflexivity.
Qed.

Lemma found_stdout (k : nat) (b : Z) : b = - Z.of_nat k -> stdout (found k) = [b].
Proof. intros ->. reflexivity. Qed.

End BackendFacts.

(* ------------------------------------------------------------------ *)
(** * Facts about rounding to a double *)

Module Rounding.

(** ** The number of bits of a mantissa *)

Lemma digits2_size (p : positive) : digits2_pos p = Pos.size p.
Proof. induction p as [p IH | p IH |]; cbn; congruence. Qed.

Lemma Zdigits2_log2 (m : Z) : 0 < m -> Zdigits2 m = Z.log2 m + 1.
Proof.
  destruct m as [| p | p]; try lia. intros _. cbn [Zdigits2].
  rewrite digits2_size. destruct p; cbn [Z.log2 Pos.size]; lia.
Qed.

Lemma Zdigits2_nonneg (m : Z) : 0 <= Zdigits2 m.
Proof. destruct m; cbn; lia. Qed.

Lemma Zdigits2_spec (m : Z) :
  0 < m -> 2 ^ (Zdigits2 m - 1) <= m < 2 ^ Zdigits2 m.
Proof.
  intros Hm. rewrite Zdigits2_log2 by exact Hm.
  replace (Z.log2 m + 1 - 1) with (Z.log2 m) by lia.
  apply Z.log2_spec. exact Hm.
Qed.

Lemma Zdigits2_upper (m n : Z) : 0 <= m -> 0 <= n -> m < 2 ^ n -> Zdigits2 m <= n.
Proof.
  intros Hm Hn Hlt. destruct (Z.eq_dec m 0) as [-> | Hne]; [exact Hn |].
  rewrite Zdigits2_log2 by lia.
  assert (Z.log2 m < n) by (apply Z.log2_lt_pow2; lia). lia.
Qed.

Lemma Zdigits2_lower (m n : Z) : 0 <= n -> 2 ^ n <= m -> n + 1 <= Zdigits2 m.
Proof.
  intros Hn Hle.
  assert (Hm : 0 < m) by (pose proof (Z.pow_pos_nonneg 2 n); lia).
  rewrite Zdigits2_log2 by exact Hm.
  assert (n <= Z.log2 m) by (apply Z.log2_le_pow2; lia). lia.
Qed.

Lemma Zdigits2_mono (m n : Z) : 0 < m -> m <= n -> Zdigits2 m <= Zdigits2 n.
Proof.
  intros Hm Hle. rewrite !Zdigits2_log2 by lia.
  pose proof (Z.log2_le_mono m n Hle). lia.
Qed.

(** ** Shifting a mantissa to the right *)

Lemma iter_pos_iter {A} (f : A -> A) (p : positive) :
  forall x, iter_pos f p x = Pos.iter f x p.
Proof.
  induction p as [p IH | p IH |]; intros x; cbn [iter_pos Pos.iter].
  - rewrite !IH, !Pos.iter_swap. reflexivity.
  - rewrite !IH. reflexivity.
  - reflexivity.
Qed.

Lemma shr_1_m (mrs : shr_record) :
  0 <= shr_m mrs -> shr_m (shr_1 mrs) = shr_m mrs / 2.
Proof.
  destruct mrs as [m r s]. cbn [shr_m]. intros Hm.
  destruct m as [| [p | p |] | p]; cbn [shr_1 shr_m]; try lia.
  - reflexivity.
  - apply (Z.div_unique _ _ _ 1); lia.
  - apply (Z.div_unique _ _ _ 0); lia.
  - reflexivity.
Qed.

Lemma shr_1_r (mrs : shr_record) :
  0 <= shr_m mrs -> shr_r (shr_1 mrs) = Z.odd (shr_m mrs).
Proof.
  destruct mrs as [m r s]. cbn [shr_m]. intros Hm.
  destruct m as [| [p | p |] | p]; cbn [shr_1 shr_r]; try lia; reflexivity.
Qed.

Lemma shr_iter_m (p : positive) (mrs : shr_record) :
  0 <= shr_m mrs ->
  shr_m (iter_pos shr_1 p mrs) = shr_m mrs / 2 ^ Zpos p.
Proof.
  intros Hm. rewrite iter_pos_iter.
  induction p as [| p IH] using Pos.peano_ind.
  - cbn [Pos.iter]. rewrite shr_1_m by exact Hm. reflexivity.
  - rewrite Pos.iter_succ, shr_1_m.
    + rewrite IH, Pos2Z.inj_succ, Z.pow_succ_r by lia.
      rewrite Z.div_div by (try apply Z.pow_pos_nonneg; lia).
      f_equal. lia.
    + rewrite IH. apply Z.div_pos; [exact Hm | apply Z.pow_pos_nonneg; lia].
Qed.

Lemma shr_iter_r (p : positive) (mrs : shr_record) :
  0 <= shr_m mrs ->
  shr_r (iter_pos shr_1 p mrs) = Z.odd (shr_m mrs / 2 ^ (Zpos p - 1)).
Proof.
  intros Hm. destruct (Pos.eq_dec p 1) as [-> | Hne].
  - cbn [iter_pos]. rewrite shr_1_r by exact Hm.
    change (2 ^ (1 - 1)) with 1. rewrite Z.div_1_r. reflexivity.
  - destruct (Pos.succ_pred_or p) as [? | Hp]; [contradiction |].
    rewrite <- Hp at 1. rewrite iter_pos_iter, Pos.iter_succ, <- iter_pos_iter.
    rewrite shr_1_r.
    + rewrite shr_iter_m by exact Hm. do 3 f_equal. lia.
    + rewrite shr_iter_m by exact Hm.
      apply Z.div_pos; [exact Hm | apply Z.pow_pos_nonneg; lia].
Qed.

Lemma shr_record_of_loc_m (m : Z) (l : location) :
  shr_m (shr_record_of_loc m l) = m.
Proof. destruct l as [| []]; reflexivity. Qed.

Lemma shr_record_of_loc_r (m : Z) (l : location) :
  shr_r (shr_record_of_loc m l) = Float64.round_bit l.
Proof. destruct l as [| []]; reflexivity. Qed.

Lemma round_without_bit (mrs : shr_record) :
  shr_r mrs = false ->
  round_nearest_even (shr_m mrs) (loc_of_shr_record mrs) = shr_m mrs.
Proof. destruct mrs as [m [] []]; cbn; (discriminate || reflexivity). Qed.

Lemma round_bounds (m : Z) (l : location) :
  m <= round_nearest_even m l <= m + 1.
Proof.
  destruct l as [| []]; cbn [round_nearest_even]; try lia.
  destruct (Z.even m); lia.
Qed.

(** ** Rounding to a double *)

Local Abbreviation fexp := (fexp Float64.prec Float64.emax).
Local Abbreviation shr_fexp := (shr_fexp Float64.prec Float64.emax).
Local Abbreviation binary_round_aux :=
  (binary_round_aux Float64.prec Float64.emax).

Lemma fexp_eq (x : Z) : fexp x = Z.max (x - 53) (-1074).
Proof. reflexivity. Qed.

(** [shr_fexp m e l] shifts [m] to the exponent of its binade, or
    leaves it alone. *)
Lemma shr_fexp_spec (m e : Z) (l : location) :
  0 <= m ->
  exists mrs e',
    shr_fexp m e l = (mrs, e') /\
    e' = Z.max e (fexp (Zdigits2 m + e)) /\
    shr_m mrs = m / 2 ^ (e' - e) /\
    shr_r mrs = if e' =? e then Float64.round_bit l else Z.odd (m / 2 ^ (e' - e - 1)).
Proof.
  intros Hm. unfold SpecFloat.shr_fexp, shr.
  set (f := fexp (Zdigits2 m + e)).
  destruct (f - e) as [| p | p] eqn:Hn.
  - exists (shr_record_of_loc m l), e.
    split; [reflexivity |]. split; [lia |].
    rewrite Z.sub_diag, Z.div_1_r, Z.eqb_refl, shr_record_of_loc_m.
    split; [reflexivity | apply shr_record_of_loc_r].
  - exists (iter_pos shr_1 p (shr_record_of_loc m l)), (e + Zpos p).
    split; [reflexivity |]. split; [lia |].
    replace (e + Zpos p - e) with (Zpos p) by lia.
    destruct (Z.eqb_spec (e + Zpos p) e) as [? | _]; [lia |].
    rewrite shr_iter_m, shr_iter_r, shr_record_of_loc_m
      by (rewrite shr_record_of_loc_m; exact Hm).
    split; reflexivity.
  - exists (shr_record_of_loc m l), e.
    split; [reflexivity |]. split; [lia |].
    rewrite Z.sub_diag, Z.div_1_r, Z.eqb_refl, shr_record_of_loc_m.
    split; [reflexivity | apply shr_record_of_loc_r].
Qed.

(** A shift that keeps a bit keeps the binade. *)
Lemma shr_fexp_mag (m e : Z) (l : location) :
  0 < m -> -1073 <= Zdigits2 m + e ->
  exists mrs e',
    shr_fexp m e l = (mrs, e') /\ e' = Z.max e (fexp (Zdigits2 m + e)) /\
    0 < shr_m mrs /\ Zdigits2 (shr_m mrs) + e' = Zdigits2 m + e.
Proof.
  intros Hm Hmag.
  destruct (shr_fexp_spec m e l ltac:(lia)) as [mrs [e' [Heq [He' [Hs _]]]]].
  exists mrs, e'. split; [exact Heq |]. split; [exact He' |].
  rewrite fexp_eq in He'.
  pose proof (Zdigits2_spec m Hm) as [Hlo Hhi].
  pose proof (Zdigits2_lower m 0 ltac:(lia) ltac:(change (2 ^ 0) with 1; lia)) as Hd.
  assert (Hn : 0 <= e' - e <= Zdigits2 m - 1) by lia.
  set (d := Zdigits2 m) in *. set (n := e' - e) in *.
  assert (Hp : 0 < 2 ^ n) by (apply Z.pow_pos_nonneg; lia).
  assert (Hlo' : 2 ^ (d - 1 - n) <= m / 2 ^ n).
  { apply Z.div_le_lower_bound; [exact Hp |].
    rewrite <- Z.pow_add_r by lia. replace (n + (d - 1 - n)) with (d - 1) by lia.
    exact Hlo. }
  assert (Hhi' : m / 2 ^ n < 2 ^ (d - n)).
  { apply Z.div_lt_upper_bound; [exact Hp |].
    rewrite <- Z.pow_add_r by lia. replace (n + (d - n)) with d by lia.
    exact Hhi. }
  rewrite Hs.
  assert (Hpos : 0 < m / 2 ^ n)
    by (pose proof (Z.pow_pos_nonneg 2 (d - 1 - n)); lia).
  split; [exact Hpos |].
  pose proof (Zdigits2_upper (m / 2 ^ n) (d - n) ltac:(lia) ltac:(lia) Hhi').
  pose proof (Zdigits2_lower (m / 2 ^ n) (d - 1 - n) ltac:(lia) Hlo').
  lia.
Qed.

(** A number below [2 ^ 1023] is not rounded to an infinity. *)
Lemma binary_round_aux_not_inf (s : bool) (m e : Z) (l : location) :
  0 <= m -> e <= 970 -> Zdigits2 m + e <= 1023 ->
  forall s', binary_round_aux s m e l <> S754_infinity s'.
Proof.
  intros Hm He Hmag s'. unfold SpecFloat.binary_round_aux.
  destruct (shr_fexp_spec m e l Hm) as [mrs1 [e1 [-> [He1 [Hm1 _]]]]].
  rewrite fexp_eq in He1.
  pose proof (Zdigits2_nonneg m) as Hd.
  assert (Hb1 : 0 <= shr_m mrs1 < 2 ^ 53).
  { rewrite Hm1.
    assert (Hp : 0 < 2 ^ (e1 - e)) by (apply Z.pow_pos_nonneg; lia).
    split; [apply Z.div_pos; lia |].
    apply Z.div_lt_upper_bound; [exact Hp |].
    rewrite <- Z.pow_add_r by lia.
    destruct (Z.eq_dec m 0) as [-> | Hne];
      [apply Z.pow_pos_nonneg; lia |].
    pose proof (Zdigits2_spec m ltac:(lia)) as [_ Hhi].
    apply (Z.lt_le_trans _ _ _ Hhi). apply Z.pow_le_mono_r; lia. }
  pose proof (round_bounds (shr_m mrs1) (loc_of_shr_record mrs1)) as Hr.
  set (m2 := round_nearest_even (shr_m mrs1) (loc_of_shr_record mrs1)) in *.
  destruct (shr_fexp_spec m2 e1 loc_Exact ltac:(lia)) as [mrs2 [e2 [-> [He2 _]]]].
  rewrite fexp_eq in He2.
  assert (Hd2 : Zdigits2 m2 <= 54)
    by (apply Zdigits2_upper; [lia | lia |];
        change (2 ^ 54) with (2 * 2 ^ 53); lia).
  destruct (shr_m mrs2) as [| p | p]; try discriminate.
  destruct (Z.leb_spec e2 (Float64.emax - Float64.prec)) as [_ | Hgt];
    [discriminate |].
  change (Float64.emax - Float64.prec) with 971 in Hgt. lia.
Qed.

(** A number below [2 ^ -1075], half the least positive double, is
    rounded to zero. *)
Lemma binary_round_aux_tiny (s : bool) (m e : Z) (l : location) :
  0 <= m -> Zdigits2 m + e <= -1075 ->
  binary_round_aux s m e l = S754_zero s.
Proof.
  intros Hm Hmag. unfold SpecFloat.binary_round_aux.
  destruct (shr_fexp_spec m e l Hm) as [mrs1 [e1 [-> [He1 [Hm1 Hr1]]]]].
  rewrite fexp_eq in He1.
  pose proof (Zdigits2_nonneg m) as Hd.
  assert (Hsmall : forall n, Zdigits2 m <= n -> m / 2 ^ n = 0).
  { intros n Hn. apply Z.div_small. split; [exact Hm |].
    destruct (Z.eq_dec m 0) as [-> | Hne]; [apply Z.pow_pos_nonneg; lia |].
    pose proof (Zdigits2_spec m ltac:(lia)) as [_ Hhi].
    apply (Z.lt_le_trans _ _ _ Hhi). apply Z.pow_le_mono_r; lia. }
  assert (Hz1 : shr_m mrs1 = 0) by (rewrite Hm1; apply Hsmall; lia).
  assert (Hb1 : shr_r mrs1 = false).
  { rewrite Hr1. destruct (Z.eqb_spec e1 e) as [? | _]; [lia |].
    rewrite Hsmall by lia. reflexivity. }
  rewrite round_without_bit, Hz1 by exact Hb1.
  destruct (shr_fexp_spec 0 e1 loc_Exact ltac:(lia)) as [mrs2 [e2 [-> [_ [Hm2 _]]]]].
  rewrite Hm2, Zdiv_0_l. reflexivity.
Qed.

(** So is nothing at all, when the remainder is below one half. *)
Lemma binary_round_aux_nothing (s : bool) (e : Z) (l : location) :
  Float64.round_bit l = false -> binary_round_aux s 0 e l = S754_zero s.
Proof.
  intros Hl. unfold SpecFloat.binary_round_aux.
  destruct (shr_fexp_spec 0 e l ltac:(lia)) as [mrs1 [e1 [-> [_ [Hm1 Hr1]]]]].
  assert (Hz1 : shr_m mrs1 = 0) by (rewrite Hm1; apply Zdiv_0_l).
  assert (Hb1 : shr_r mrs1 = false).
  { rewrite Hr1. destruct (e1 =? e); [exact Hl |].
    rewrite Zdiv_0_l. reflexivity. }
  rewrite round_without_bit, Hz1 by exact Hb1.
  destruct (shr_fexp_spec 0 e1 loc_Exact ltac:(lia)) as [mrs2 [e2 [-> [_ [Hm2 _]]]]].
  rewrite Hm2, Zdiv_0_l. reflexivity.
Qed.

(** A number of at least [2 ^ -1074] is rounded to a number that is
    not below its binade. *)
Lemma binary_round_aux_mag (s : bool) (m e : Z) (l : location) :
  0 < m -> -1073 <= Zdigits2 m + e ->
  match binary_round_aux s m e l with
  | S754_finite s' m' e' => s' = s /\ Zdigits2 m + e <= Zdigits2 (Zpos m') + e'
  | S754_infinity _ => True
  | _ => False
  end.
Proof.
  intros Hm Hmag. unfold SpecFloat.binary_round_aux.
  destruct (shr_fexp_mag m e l Hm Hmag) as [mrs1 [e1 [-> [_ [Hp1 Hg1]]]]].
  pose proof (round_bounds (shr_m mrs1) (loc_of_shr_record mrs1)) as Hr.
  set (m2 := round_nearest_even (shr_m mrs1) (loc_of_shr_record mrs1)) in *.
  pose proof (Zdigits2_mono (shr_m mrs1) m2 Hp1 ltac:(lia)) as Hmono.
  destruct (shr_fexp_mag m2 e1 loc_Exact ltac:(lia) ltac:(lia))
    as [mrs2 [e2 [-> [_ [Hp2 Hg2]]]]].
  destruct (shr_m mrs2) as [| p | p]; try lia.
  destruct (e2 <=? Float64.emax - Float64.prec); [| exact I].
  split; [reflexivity | lia].
Qed.

(** ** [float(n)] *)

Lemma iter_xO_digits (d p : positive) :
  Zpos (digits2_pos (Pos.iter xO p d)) = Zpos (digits2_pos p) + Zpos d.
Proof.
  induction d as [| d IH] using Pos.peano_ind.
  - cbn [Pos.iter digits2_pos]. lia.
  - rewrite Pos.iter_succ. cbn [digits2_pos]. lia.
Qed.

Lemma shl_align_mag (p : positive) (e e' : Z) :
  Zpos (digits2_pos (fst (shl_align p e e'))) + snd (shl_align p e e')
  = Zpos (digits2_pos p) + e.
Proof.
  unfold shl_align. destruct (e' - e) as [| d | d] eqn:Hd; cbn [fst snd];
    try reflexivity.
  rewrite iter_xO_digits. lia.
Qed.

(** [float(n)] for [n >= 2] is a positive double, at least 2. *)
Lemma float_of_int_mag (n : Z) (iv : spec_float) :
  2 <= n -> Float64.float_of_int n = Ok iv ->
  exists m e, iv = S754_finite false m e /\ 2 <= Zdigits2 (Zpos m) + e.
Proof.
  intros Hn. unfold Float64.float_of_int.
  destruct n as [| p | p]; try lia.
  cbn [binary_normalize]. unfold binary_round.
  pose proof (shl_align_mag p 0
                (SpecFloat.fexp Float64.prec Float64.emax
                   (Zpos (digits2_pos p) + 0))) as Hal.
  destruct (shl_align p 0 _) as [mz ez]. cbn [fst snd] in Hal.
  assert (Hd : 2 <= Zpos (digits2_pos p))
    by (apply (Zdigits2_lower (Zpos p) 1); lia).
  pose proof (binary_round_aux_mag false (Zpos mz) ez loc_Exact
                ltac:(lia) ltac:(cbn [Zdigits2]; lia)) as Hr.
  destruct (SpecFloat.binary_round_aux _ _ false (Zpos mz) ez loc_Exact)
    as [s | s | | s m e]; try contradiction; try discriminate.
  intros [= <-]. destruct Hr as [-> Hr]. exists m, e.
  split; [reflexivity |]. cbn [Zdigits2] in *. lia.
Qed.


Lemma shl_align_exp (p : positive) (e e' : Z) : snd (shl_align p e e') <= e.
Proof.
  unfold shl_align. destruct (e' - e) as [| d | d] eqn:Hd; cbn [snd]; lia.
Qed.

Lemma round_with_bit (mrs : shr_record) :
  shr_r mrs = true -> Z.odd (shr_m mrs) = true ->
  round_nearest_even (shr_m mrs) (loc_of_shr_record mrs) = shr_m mrs + 1.
Proof.
  destruct mrs as [m [] []]; cbn [shr_r shr_m loc_of_shr_record round_nearest_even];
    try discriminate; intros _ Ho; [reflexivity |].
  rewrite <- Z.negb_odd, Ho. reflexivity.
Qed.

(** [float(n)] of a number of more than 53 bits rounds [n] itself. *)
Lemma float_of_wide_int (p : positive) :
  54 <= Zpos (digits2_pos p) ->
  Float64.float_of_int (Zpos p) =
    match binary_round_aux false (Zpos p) 0 loc_Exact with
    | S754_infinity _ => Raise OverflowError
    | f => Ok f
    end.
Proof.
  intros Hd. unfold Float64.float_of_int. cbn [binary_normalize].
  unfold binary_round, shl_align. rewrite fexp_eq.
  destruct (Z.max (Zpos (digits2_pos p) + 0 - 53) (-1074) - 0) eqn:He;
    try reflexivity.
  lia.
Qed.

(** The least integer that [float] rejects is [2 ^ 1024 - 2 ^ 970]:
    half a unit in the last place above the greatest double. *)
Lemma float_of_int_fits (n : Z) :
  0 <= n < 2 ^ 1024 - 2 ^ 970 -> exists iv, Float64.float_of_int n = Ok iv.
Proof.
  intros [Hn Hlt].
  assert (Hok : forall f, (forall s, f <> S754_infinity s) ->
            exists iv, match f with
                       | S754_infinity _ => Raise OverflowError
                       | S754_zero s => Ok (S754_zero s)
                       | S754_nan => Ok S754_nan
                       | S754_finite s m e => Ok (S754_finite s m e)
                       end = Ok iv).
  { intros f Hf. destruct f as [s | s | | s m e]; try (eexists; reflexivity).
    exfalso. exact (Hf s eq_refl). }
  destruct n as [| p | p]; [eexists; reflexivity | | lia].
  assert (Ha : 0 < 2 ^ 970) by (apply Z.pow_pos_nonneg; lia).
  assert (H1024 : 2 ^ 1024 = 2 ^ 54 * 2 ^ 970)
    by (rewrite <- Z.pow_add_r by lia; reflexivity).
  assert (H1023 : 2 ^ 1023 = 2 ^ 53 * 2 ^ 970)
    by (rewrite <- Z.pow_add_r by lia; reflexivity).
  assert (H971 : 2 ^ 971 = 2 ^ 970 * 2)
    by (change (2 ^ 971) with (2 ^ (970 + 1)); rewrite Z.pow_add_r by lia;
        reflexivity).
  rewrite H1024 in Hlt.
  set (a := 2 ^ 970) in *. change (2 ^ 54) with 18014398509481984 in *.
  change (2 ^ 53) with 9007199254740992 in *.
  destruct (Z.lt_ge_cases (Zpos p) (2 ^ 1023)) as [Hsmall | Hbig].
  - (* at most 1023 bits *)
    unfold Float64.float_of_int. cbn [binary_normalize]. unfold binary_round.
    pose proof (shl_align_mag p 0
                  (SpecFloat.fexp Float64.prec Float64.emax
                     (Zpos (digits2_pos p) + 0))) as Hal.
    pose proof (shl_align_exp p 0
                  (SpecFloat.fexp Float64.prec Float64.emax
                     (Zpos (digits2_pos p) + 0))) as Hex.
    destruct (shl_align p 0 _) as [mz ez]. cbn [fst snd] in Hal, Hex.
    apply Hok. apply binary_round_aux_not_inf; [lia | lia |].
    pose proof (Zdigits2_upper (Zpos p) 1023 ltac:(lia) ltac:(lia) Hsmall) as Hd.
    cbn [Zdigits2] in *. lia.
  - (* 1024 bits *)
    assert (Hd : Zpos (digits2_pos p) = 1024).
    { pose proof (Zdigits2_lower (Zpos p) 1023 ltac:(lia) Hbig) as H1.
      pose proof (Zdigits2_upper (Zpos p) 1024 ltac:(lia) ltac:(lia)
                    ltac:(rewrite H1024; nia)) as H2.
      cbn [Zdigits2] in *. lia. }
    rewrite float_of_wide_int by lia. apply Hok. intros s.
    unfold SpecFloat.binary_round_aux.
    destruct (shr_fexp_spec (Zpos p) 0 loc_Exact ltac:(lia))
      as [mrs1 [e1 [-> [He1 [Hm1 Hr1]]]]].
    cbn [Zdigits2] in He1. rewrite Hd, fexp_eq in He1.
    assert (E1 : e1 = 971) by lia. clear He1. subst e1.
    change (971 =? 0) with false in Hr1. cbv iota in Hr1.
    change (971 - 0 - 1) with 970 in Hr1. change (971 - 0) with 971 in Hm1.
    fold a in Hr1. rewrite H971, <- Z.div_div in Hm1 by lia. fold a in Hm1.
    set (h := Zpos p / a) in *.
    assert (Hh : 9007199254740992 <= h <= 18014398509481982).
    { subst h. split.
      - apply Z.div_le_lower_bound; [exact Ha |]. rewrite H1023 in Hbig. lia.
      - apply Z.lt_succ_r. apply Z.div_lt_upper_bound; [exact Ha |]. lia. }
    assert (Hm2 : 0 < round_nearest_even (shr_m mrs1) (loc_of_shr_record mrs1)
                    < 9007199254740992).
    { pose proof (round_bounds (shr_m mrs1) (loc_of_shr_record mrs1)) as Hb.
      destruct (Z.eq_dec h 18014398509481982) as [Hmax | Hne].
      - rewrite round_without_bit by (rewrite Hr1, Hmax; reflexivity).
        rewrite Hm1, Hmax. split; reflexivity.
      - assert (h / 2 <= 9007199254740990)
          by (apply Z.lt_succ_r, Z.div_lt_upper_bound; lia).
        assert (4503599627370496 <= h / 2)
          by (apply Z.div_le_lower_bound; lia).
        lia. }
    set (m2 := round_nearest_even (shr_m mrs1) (loc_of_shr_record mrs1)) in *.
    destruct (shr_fexp_spec m2 971 loc_Exact ltac:(lia))
      as [mrs2 [e2 [-> [He2 _]]]].
    rewrite fexp_eq in He2.
    pose proof (Zdigits2_upper m2 53 ltac:(lia) ltac:(lia)
                  ltac:(change (2 ^ 53) with 9007199254740992; lia)) as Hd2.
    destruct (shr_m mrs2) as [| q | q]; try discriminate.
    destruct (Z.leb_spec e2 (Float64.emax - Float64.prec)) as [_ | Hgt];
      [discriminate |].
    change (Float64.emax - Float64.prec) with 971 in Hgt. lia.
Qed.

Lemma float_of_int_overflows (n : Z) :
  2 ^ 1024 - 2 ^ 970 <= n -> Float64.float_of_int n = Raise OverflowError.
Proof.
  intros Hge.
  assert (Ha : 0 < 2 ^ 970) by (apply Z.pow_pos_nonneg; lia).
  assert (H1024 : 2 ^ 1024 = 2 ^ 54 * 2 ^ 970)
    by (rewrite <- Z.pow_add_r by lia; reflexivity).
  assert (H971 : 2 ^ 971 = 2 ^ 970 * 2)
    by (change (2 ^ 971) with (2 ^ (970 + 1)); rewrite Z.pow_add_r by lia;
        reflexivity).
  assert (Hinf : forall f s, f = S754_infinity s ->
            match f with
            | S754_infinity _ => Raise OverflowError
            | S754_zero s => Ok (S754_zero s)
            | S754_nan => Ok S754_nan
            | S754_finite s m e => Ok (S754_finite s m e)
            end = Raise OverflowError) by (intros f s ->; reflexivity).
  assert (H1023 : 2 ^ 1023 = 2 ^ 53 * 2 ^ 970)
    by (rewrite <- Z.pow_add_r by lia; reflexivity).
  destruct (Z.lt_ge_cases n (2 ^ 1024)) as [Hlt | Hbig].
  - (* 1024 bits, and a mantissa that is rounded up to [2 ^ 53] *)
    rewrite H1024 in Hge, Hlt.
    set (a := 2 ^ 970) in *. change (2 ^ 54) with 18014398509481984 in *.
    change (2 ^ 53) with 9007199254740992 in *.
    destruct n as [| p | p]; try lia.
    assert (Hd : Zpos (digits2_pos p) = 1024).
    { assert (Hlo : 2 ^ 1023 <= Zpos p) by lia.
      pose proof (Zdigits2_lower (Zpos p) 1023 ltac:(lia) Hlo) as H1.
      pose proof (Zdigits2_upper (Zpos p) 1024 ltac:(lia) ltac:(lia)
                    ltac:(rewrite H1024; fold a; lia)) as H2.
      cbn [Zdigits2] in *. lia. }
    rewrite float_of_wide_int by lia. apply (Hinf _ false).
    unfold SpecFloat.binary_round_aux.
    destruct (shr_fexp_spec (Zpos p) 0 loc_Exact ltac:(lia))
      as [mrs1 [e1 [-> [He1 [Hm1 Hr1]]]]].
    cbn [Zdigits2] in He1. rewrite Hd, fexp_eq in He1.
    assert (E1 : e1 = 971) by lia. clear He1. subst e1.
    change (971 =? 0) with false in Hr1. cbv iota in Hr1.
    change (971 - 0 - 1) with 970 in Hr1. change (971 - 0) with 971 in Hm1.
    fold a in Hr1. rewrite H971, <- Z.div_div in Hm1 by lia. fold a in Hm1.
    assert (Hh : Zpos p / a = 18014398509481983).
    { symmetry. apply (Z.div_unique _ _ _ (Zpos p - a * 18014398509481983)); lia. }
    rewrite Hh in Hm1, Hr1.
    rewrite round_with_bit by (first [rewrite Hr1 | rewrite Hm1]; reflexivity).
    rewrite Hm1. change (18014398509481983 / 2 + 1) with 9007199254740992.
    destruct (shr_fexp_spec 9007199254740992 971 loc_Exact ltac:(lia))
      as [mrs2 [e2 [-> [He2 [Hm2 _]]]]].
    change (Zdigits2 9007199254740992) with 54 in He2. rewrite fexp_eq in He2.
    assert (E2 : e2 = 972) by lia. clear He2. subst e2. rewrite Hm2. reflexivity.
  - (* more than 1024 bits *)
    assert (Hn : 0 < n) by (pose proof (Z.pow_pos_nonneg 2 1024); lia).
    destruct n as [| p | p]; try lia.
    pose proof (Zdigits2_lower (Zpos p) 1024 ltac:(lia) Hbig) as Hd.
    cbn [Zdigits2] in Hd.
    rewrite float_of_wide_int by lia.
    unfold SpecFloat.binary_round_aux.
    destruct (shr_fexp_mag (Zpos p) 0 loc_Exact ltac:(lia)
                ltac:(cbn [Zdigits2]; lia))
      as [mrs1 [e1 [-> [He1 [Hp1 Hg1]]]]].
    cbn [Zdigits2] in He1, Hg1. rewrite fexp_eq in He1.
    pose proof (round_bounds (shr_m mrs1) (loc_of_shr_record mrs1)) as Hr.
    set (m2 := round_nearest_even (shr_m mrs1) (loc_of_shr_record mrs1)) in *.
    pose proof (Zdigits2_mono (shr_m mrs1) m2 Hp1 ltac:(lia)) as Hmono.
    destruct (shr_fexp_mag m2 e1 loc_Exact ltac:(lia) ltac:(lia))
      as [mrs2 [e2 [-> [He2 [Hp2 _]]]]].
    destruct (shr_m mrs2) as [| q | q]; try lia.
    destruct (Z.leb_spec e2 (Float64.emax - Float64.prec)) as [Hle | _];
      [| reflexivity].
    change (Float64.emax - Float64.prec) with 971 in Hle. lia.
Qed.

(** ** The reciprocal of a power *)

Lemma trim_mag (m : positive) : forall e,
  Zpos (digits2_pos (fst (Float64.trim m e))) + snd (Float64.trim m e)
  = Zpos (digits2_pos m) + e.
Proof.
  induction m as [p IH | p IH |]; intros e; cbn [Float64.trim fst snd];
    try reflexivity.
  rewrite IH. cbn [digits2_pos]. lia.
Qed.

Lemma pow_mag (m k : positive) (e : Z) :
  2 <= Zpos (digits2_pos m) + e ->
  Zpos k + 1 <= Zpos (digits2_pos (Pos.pow m k)) + e * Zpos k.
Proof.
  intros Hmag.
  pose proof (Zdigits2_spec (Zpos m) ltac:(lia)) as [Hlo _].
  cbn [Zdigits2] in Hlo. set (d := Zpos (digits2_pos m)) in *.
  assert (Hd : 1 <= d) by (subst d; lia).
  assert (Hpow : 2 ^ ((d - 1) * Zpos k) <= Zpos (Pos.pow m k)).
  { rewrite Pos2Z.inj_pow, Z.pow_mul_r by lia.
    apply Z.pow_le_mono_l. split; [apply Z.pow_nonneg; lia | exact Hlo]. }
  apply Zdigits2_lower in Hpow; [| nia].
  cbn [Zdigits2] in Hpow. nia.
Qed.

(** The quotient of 1 by [M * 2 ^ E], as [SFdiv] takes it before
    rounding. *)
Lemma recip_core (M : positive) (E : Z) :
  1 <= Zpos (digits2_pos M) + E ->
  exists q e' l,
    SFdiv_core_binary Float64.prec Float64.emax 1 0 (Zpos M) E = (q, e', l) /\
    0 <= q /\ e' <= -53 /\
    (0 < q -> Zdigits2 q + e' <= 2 - (Zpos (digits2_pos M) + E)) /\
    (1077 <= Zpos (digits2_pos M) + E ->
     q = 0 -> e' <= -1075 \/ Float64.round_bit l = false).
Proof.
  intros HD. unfold SFdiv_core_binary. cbn [Zdigits2]. cbv zeta.
  change (Zpos (digits2_pos 1)) with 1.
  set (d := Zpos (digits2_pos M)) in *.
  rewrite fexp_eq.
  set (e' := Z.min (Z.max (1 + 0 - (d + E) - 53) (-1074)) (0 - E)).
  set (s := 0 - E - e').
  assert (Hs : 0 <= s) by lia.
  assert (Hm' : match s with
                | 0 => 1
                | Zpos _ => Z.shiftl 1 s
                | Zneg _ => 0
                end = 2 ^ s).
  { destruct s as [| p | p] eqn:Hp; [reflexivity | | lia].
    rewrite Z.shiftl_mul_pow2 by lia. lia. }
  rewrite Hm'.
  pose proof (Z.div_eucl_eq (2 ^ s) (Zpos M) ltac:(lia)) as Heq.
  pose proof (Z.mod_pos_bound (2 ^ s) (Zpos M) ltac:(lia)) as Hmod.
  unfold Z.modulo in Hmod.
  destruct (Z.div_eucl (2 ^ s) (Zpos M)) as [q r].
  exists q, e', (new_location (Zpos M) r).
  split; [reflexivity |].
  assert (Hps : 0 < 2 ^ s) by (apply Z.pow_pos_nonneg; lia).
  assert (Hq : 0 <= q) by nia.
  pose proof (Zdigits2_spec (Zpos M) ltac:(lia)) as [Hlo _].
  cbn [Zdigits2] in Hlo. fold d in Hlo.
  assert (Hd : 1 <= d) by (subst d; lia).
  split; [exact Hq |]. split; [lia |]. split.
  - intros Hq0.
    assert (Hle : 2 ^ (d - 1) * q <= 2 ^ s) by nia.
    assert (Hds : d - 1 <= s).
    { destruct (Z.le_gt_cases (d - 1) s) as [? | Hgt]; [assumption |].
      assert (2 ^ s < 2 ^ (d - 1)) by (apply Z.pow_lt_mono_r; lia). nia. }
    assert (Hsplit : 2 ^ s = 2 ^ (d - 1) * 2 ^ (s - d + 1))
      by (rewrite <- Z.pow_add_r by lia; f_equal; lia).
    assert (Hqle : q <= 2 ^ (s - d + 1)).
    { rewrite Hsplit in Hle.
      apply Z.mul_le_mono_pos_l in Hle; [exact Hle |].
      apply Z.pow_pos_nonneg; lia. }
    assert (Hdq : Zdigits2 q <= s - d + 2).
    { apply Zdigits2_upper; [lia | lia |].
      replace (s - d + 2) with (Z.succ (s - d + 1)) by lia.
      rewrite Z.pow_succ_r by lia.
      pose proof (Z.pow_pos_nonneg 2 (s - d + 1)). lia. }
    lia.
  - intros Hbig ->.
    destruct (Z.le_gt_cases e' (-1075)) as [? | Hgt]; [left; assumption |].
    right.
    assert (He' : e' = -1074) by lia.
    assert (Hsd : s + 2 <= d - 1) by lia.
    assert (H4 : 2 ^ (s + 2) <= Zpos M).
    { apply (Z.le_trans _ (2 ^ (d - 1))); [| exact Hlo].
      apply Z.pow_le_mono_r; lia. }
    replace (s + 2) with (Z.succ (Z.succ s)) in H4 by lia.
    rewrite !Z.pow_succ_r in H4 by lia.
    assert (Hr : r = 2 ^ s) by lia.
    unfold new_location, new_location_even, new_location_odd.
    destruct (Z.even (Zpos M)); cbv beta;
      (destruct (Z.eqb_spec r 0) as [? | _]; [lia |]).
    + destruct (Z.compare_spec (2 * r) (Zpos M)); try lia. reflexivity.
    + destruct (Z.compare_spec (2 * r + 1) (Zpos M)); try lia; reflexivity.
Qed.

Lemma recip_not_inf (sg : bool) (M : positive) (E : Z) :
  1 <= Zpos (digits2_pos M) + E ->
  forall s', SFdiv Float64.prec Float64.emax (S754_finite false 1 0)
               (S754_finite sg M E) <> S754_infinity s'.
Proof.
  intros HD s'. cbn [SFdiv].
  destruct (recip_core M E HD) as [q [e' [l [-> [Hq [He' [Hmag _]]]]]]].
  apply binary_round_aux_not_inf; [exact Hq | lia |].
  destruct (Z.eq_dec q 0) as [-> | Hne]; [cbn [Zdigits2]; lia |].
  specialize (Hmag ltac:(lia)). lia.
Qed.

Lemma recip_zero (sg : bool) (M : positive) (E : Z) :
  1077 <= Zpos (digits2_pos M) + E ->
  SFdiv Float64.prec Float64.emax (S754_finite false 1 0) (S754_finite sg M E)
  = S754_zero sg.
Proof.
  intros HD. cbn [SFdiv xorb].
  destruct (recip_core M E ltac:(lia)) as [q [e' [l [-> [Hq [He' [Hmag Hz]]]]]]].
  destruct (Z.eq_dec q 0) as [-> | Hne].
  - destruct (Hz HD eq_refl) as [Hlow | Hbit].
    + apply binary_round_aux_tiny; [lia | cbn [Zdigits2]; lia].
    + apply binary_round_aux_nothing. exact Hbit.
  - specialize (Hmag ltac:(lia)).
    apply binary_round_aux_tiny; lia.
Qed.

(** A double [iv >= 2] to the power [- k]: a double, and [+0.0] from
    [k = 1076] on. *)
Lemma float_pow_neg_value (m : positive) (e : Z) (k : positive) :
  2 <= Zpos (digits2_pos m) + e ->
  exists r, Float64.float_pow_neg (S754_finite false m e) k = Ok r /\
            (1076 <= Zpos k -> r = S754_zero false).
Proof.
  intros Hmag. cbn [Float64.float_pow_neg andb].
  pose proof (trim_mag m e) as Ht.
  destruct (Float64.trim m e) as [m1 e1]. cbn [fst snd] in Ht.
  pose proof (pow_mag m1 k e1 ltac:(lia)) as Hp.
  pose proof (recip_not_inf false (Pos.pow m1 k) (e1 * Zpos k) ltac:(lia)) as Hni.
  destruct (Z.le_gt_cases 1076 (Zpos k)) as [Hbig | Hsmall].
  - rewrite recip_zero by lia. exists (S754_zero false).
    split; [reflexivity | intros _; reflexivity].
  - destruct (SFdiv _ _ _ _) as [s | s | | s mr er];
      try (eexists; split; [reflexivity | intros; lia]).
    exfalso. exact (Hni s eq_refl).
Qed.

End Rounding.

(* ------------------------------------------------------------------ *)
(** * Facts about the two exponentiations, for any base *)

Module BaseFacts.
Import Probe Notebook LoopFacts BackendFacts Rounding.

(** ** The power of the first two cells, for any base *)

(** The exponents from 0 down to -1076, each checked by evaluation. *)
Lemma exponents_checked : forallb exponent_check (descent 1077) = true.
Proof. vm_compute. reflexivity. Qed.

Lemma exponent_converted (k : nat) :
  (k < 1077)%nat ->
  exists iw, Float64.float_of_int (- Z.of_nat k) = Ok iw /\
             Float64.int_of_float iw = - Z.of_nat k.
Proof.
  intros Hk.
  assert (H : exponent_check (- Z.of_nat k) = true)
    by (apply (forallb_descent _ _ exponents_checked); exact Hk).
  unfold exponent_check in H.
  destruct (Float64.float_of_int (- Z.of_nat k)) as [iw | e]; [| discriminate].
  exists iw. split; [reflexivity | apply Z.eqb_eq; exact H].
Qed.

(** [X ** -k] for a base [X >= 2] that [float] accepts: a double at
    every exponent down to -1076, where it is [+0.0]. *)
Lemma int_pow_value (base : Z) (k : nat) :
  2 <= base < 2 ^ 1024 - 2 ^ 970 -> (1 <= k < 1077)%nat ->
  exists r, Float64.int_pow base (- Z.of_nat k) = Ok (Float64.VFloat r) /\
            (k = 1076%nat -> r = S754_zero false).
Proof.
  intros Hb Hk. unfold Float64.int_pow.
  destruct (Z.leb_spec 0 (- Z.of_nat k)) as [? | _]; [lia |].
  destruct (float_of_int_fits base ltac:(lia)) as [iv Hiv].
  destruct (float_of_int_mag base iv ltac:(lia) Hiv) as [m [e [-> Hmag]]].
  destruct (exponent_converted k ltac:(lia)) as [iw [Hiw Hint]].
  rewrite Hiv, Hiw. cbn [bind]. rewrite Hint, Z.opp_involutive.
  destruct (float_pow_neg_value m e (Z.to_pos (Z.of_nat k)) Hmag) as [r [-> Hr]].
  exists r. split; [reflexivity |].
  intros ->. apply Hr. vm_compute. discriminate.
Qed.

Lemma int_pow_zero (base : Z) : Float64.int_pow base 0 = Ok (Float64.VInt 1).
Proof. unfold Float64.int_pow. cbn [Z.leb Z.compare]. reflexivity. Qed.

(** The power has a value at every exponent that a cell whose
    logarithm fails at [+0.0] reaches. *)
Lemma float_power_reached (base : Z) (log_fn : Float64.pyval -> result logval)
      (k : nat) :
  2 <= base < 2 ^ 1024 - 2 ^ 970 ->
  try_except log_fn zero = Ok true ->
  (forall j, (j < k)%nat ->
     probe_at (math_power base) (try_except log_fn) (- Z.of_nat j) = Ok false) ->
  exists x, math_power base (- Z.of_nat k) = Ok x.
Proof.
  intros Hb Hzero Hgo. unfold math_power in *.
  destruct (Nat.eq_dec k 0) as [-> | Hk0].
  { eexists. apply int_pow_zero. }
  destruct (Nat.lt_ge_cases k 1077) as [Hlt | Hge].
  - destruct (int_pow_value base k Hb ltac:(lia)) as [r [Hr _]].
    eexists. exact Hr.
  - exfalso. specialize (Hgo 1076%nat ltac:(lia)).
    destruct (int_pow_value base 1076 Hb ltac:(lia)) as [r [Hr Hz]].
    unfold probe_at, bind in Hgo. rewrite Hr, (Hz eq_refl) in Hgo.
    fold zero in Hgo. rewrite Hzero in Hgo. discriminate.
Qed.

(** A base that [float] rejects: the cell takes the logarithm of
    [X ** 0], and [X ** -1] raises outside the [try]. *)
Lemma float_cell_overflow (base : Z) (log_fn : Float64.pyval -> result logval)
      (y : logval) (fuel : nat) :
  2 ^ 1024 - 2 ^ 970 <= base ->
  log_fn (Float64.VInt 1) = Ok y ->
  while (math_power base) (try_except log_fn) (S (S fuel)) initial
  = Crashed OverflowError (searching 1).
Proof.
  intros Hb Hy. change initial with (searching 0).
  change (S (S fuel)) with (1 + S fuel)%nat.
  rewrite while_searching.
  - cbn [Nat.add while searching no_error]. fold_searching 1%nat.
    unfold body, math_power, Float64.int_pow. cbn [power searching].
    change (0 <=? - Z.of_nat 1) with false. cbv iota.
    rewrite float_of_int_overflows by exact Hb. reflexivity.
  - intros j Hj. replace j with 0%nat by lia.
    unfold probe_at, math_power, try_except, bind.
    cbn [Z.of_nat Z.opp]. rewrite int_pow_zero, Hy. reflexivity.
Qed.

(** ** The power of the third cell, for any base *)

Lemma ndigits_aux_nonneg (fuel : nat) : forall c, 0 <= PyDecimal.ndigits_aux fuel c.
Proof.
  induction fuel as [| fuel IH]; intros c; cbn [PyDecimal.ndigits_aux]; [lia |].
  destruct (c <? 10); [lia |]. specialize (IH (c / 10)). lia.
Qed.

Lemma ndigits_pos (c : Z) : 1 <= PyDecimal.ndigits c.
Proof.
  unfold PyDecimal.ndigits. cbn [PyDecimal.ndigits_aux].
  destruct (c <? 10); [lia |].
  pose proof (ndigits_aux_nonneg (Z.to_nat (Z.log2 c)) (c / 10)). lia.
Qed.

Lemma strip_aux_exp (fuel : nat) : forall c e,
  e <= snd (PyDecimal.strip_aux fuel c e).
Proof.
  induction fuel as [| fuel IH]; intros c e; cbn [PyDecimal.strip_aux];
    [cbn; lia |].
  destruct ((0 <? c) && (c mod 10 =? 0)); [| cbn; lia].
  specialize (IH (c / 10) (e + 1)). lia.
Qed.

(** In the default context a rounding below the top of the exponent
    range returns: no signal that it sends is trapped. *)
Lemma finish_default_value (s : bool) (coeff e : Z) (changed subnormal : bool) :
  e < 999972 ->
  exists x, PyDecimal.finish PyDecimal.DefaultContext s coeff e changed subnormal
            = Ok x.
Proof.
  intros He. unfold PyDecimal.finish.
  change (PyDecimal.Etop PyDecimal.DefaultContext) with 999972.
  destruct (PyDecimal.prec PyDecimal.DefaultContext <? PyDecimal.ndigits coeff).
  - destruct (Z.ltb_spec 999972 (e + 1)) as [? | _]; [lia |].
    destruct changed, subnormal, (coeff / 10 =? 0); eexists; reflexivity.
  - destruct (Z.ltb_spec 999972 e) as [? | _]; [lia |].
    destruct changed, subnormal, (coeff =? 0); eexists; reflexivity.
Qed.

Lemma round_ratio_default_value (s : bool) (den q : Z) :
  q <= 0 ->
  exists x, PyDecimal.round_ratio PyDecimal.DefaultContext s 1 den q = Ok x.
Proof.
  intros Hq. unfold PyDecimal.round_ratio. cbv zeta.
  change (PyDecimal.ndigits 1) with 1.
  change (PyDecimal.prec PyDecimal.DefaultContext) with 28.
  change (PyDecimal.Etiny PyDecimal.DefaultContext) with (-1000026).
  pose proof (ndigits_pos den) as Hd.
  set (e1 := Z.max (-1000026) (1 - PyDecimal.ndigits den + q - 28)).
  assert (He1 : e1 <= -28) by lia.
  match goal with |- context [if ?b then e1 else e1 + 1] => destruct b end;
    match goal with |- context [if ?b then (_, den) else _] => destruct b end;
    apply finish_default_value; lia.
Qed.

(** [Decimal(X) ** e] has a value for every base [X >= 2] and every
    exponent [e <= 0]: the quotient is at most 1, so nothing overflows,
    and the default context traps no signal of an underflow. *)
Lemma decimal_power_value (base e : Z) :
  2 <= base -> e <= 0 ->
  exists x, PyDecimal.pow PyDecimal.DefaultContext (PyDecimal.of_int base) e = Ok x.
Proof.
  intros Hb He. unfold PyDecimal.pow, PyDecimal.of_int.
  destruct (Z.ltb_spec base 0) as [? | _]; [lia |]. cbn [andb].
  destruct (Z.eqb_spec (Z.abs base) 0) as [? | _]; [lia |].
  destruct (e =? 0); [eexists; reflexivity |].
  destruct (Z.ltb_spec 0 e) as [? | _]; [lia |].
  pose proof (strip_aux_exp (Z.to_nat (Z.log2 (Z.abs base))) (Z.abs base) 0) as Hx.
  unfold PyDecimal.strip.
  destruct (PyDecimal.strip_aux _ (Z.abs base) 0) as [xc xe]. cbn [snd] in Hx.
  destruct (xc =? 1).
  - rewrite fix_one by nia. eexists. reflexivity.
  - apply round_ratio_default_value. nia.
Qed.

End BaseFacts.

(* ------------------------------------------------------------------ *)
(** * The properties of the notebook *)

Module Claims.
Import Probe Notebook LoopFacts BackendFacts BaseFacts.

Lemma math_reports : reports (math_cell X) (-324).
Proof.
  exists (324 + 1)%nat, (found 324). split; [| reflexivity].
  apply while_found; [exact math_goes_on | exact math_stops].
Qed.

Lemma numpy_reports : reports (numpy_cell (setup fresh) X) (-324).
Proof.
  exists (324 + 1)%nat, (found 324). split; [| reflexivity].
  apply while_found; [exact numpy_goes_on | exact numpy_stops].
Qed.

Lemma decimal_reports : reports (decimal_cell (setup fresh) X) (-1000027).
Proof.
  exists (Z.to_nat 1000027 + 1)%nat, (found (Z.to_nat 1000027)). split.
  - apply while_found; [exact decimal_goes_on | exact decimal_stops].
  - apply found_stdout. lia.
Qed.

(** Whatever the fuel, a cell that ends has stopped at its boundary. *)
Lemma cell_done (c : backend) (fuel : nat) (s : state) :
  cell (setup fresh) c X fuel = Done s ->
  s = found (match c with Dec => Z.to_nat 1000027 | _ => 324%nat end).
Proof.
  destruct c; cbn [cell]; intros Hw.
  - exact (while_done_unique _ _ 324 math_goes_on math_stops fuel s Hw).
  - exact (while_done_unique _ _ 324 numpy_goes_on numpy_stops fuel s Hw).
  - exact (while_done_unique _ _ _ decimal_goes_on decimal_stops fuel s Hw).
Qed.

Lemma cell_boundary (c : backend) (b : Z) :
  reports (cell (setup fresh) c X) b ->
  b = match c with Dec => -1000027 | _ => -324 end.
Proof.
  intros [fuel [s [Hw Hout]]]. apply cell_done in Hw. subst s.
  cbn [found stdout] in Hout. injection Hout as <-.
  destruct c; lia.
Qed.

Lemma cell_fails_at_boundary (c : backend) :
  cell_fails_at (setup fresh) c X (match c with Dec => -1000027 | _ => -324 end).
Proof.
  destruct c; cbn [cell_fails_at].
  - exists zero. split; [apply (float_underflow 324); lia | reflexivity].
  - exists zero. split; [apply (float_underflow 324); lia | reflexivity].
  - exists (PyDecimal.DFinite false 0 (-1000026)).
    split; [apply (decimal_underflow 1000027); lia | reflexivity].
Qed.

Lemma cell_log_above_boundary (c : backend) (e : Z) :
  (match c with Dec => -1000027 | _ => -324 end) < e <= 0 ->
  cell_log (setup fresh) c X e = Ok Fin.
Proof.
  intros He. destruct c; cbn [cell_log].
  - destruct (float_range (Z.to_nat (- e))) as [x [Hx [Hm _]]]; [lia |].
    rewrite Z2Nat.id, Z.opp_involutive in Hx by lia.
    unfold log_at, bind. rewrite Hx. exact Hm.
  - destruct (float_range (Z.to_nat (- e))) as [x [Hx [_ [Hn _]]]]; [lia |].
    rewrite Z2Nat.id, Z.opp_involutive in Hx by lia.
    unfold log_at, bind. rewrite Hx. exact Hn.
  - rewrite <- (Z.opp_involutive e). apply decimal_range. lia.
Qed.

(** C1. With [X = 10] and the exponent starting at 0, the cells of
    [math.log] and of [numpy.log] (warnings turned into errors) both
    print -324: the logarithm of [10 ** e] is finite for every exponent
    [e] with [-324 < e <= 0], [10 ** -324] is the double [+0.0], and the
    logarithm of [+0.0] raises, [ValueError] for [math] and the escalated
    [RuntimeWarning] for [numpy]. *)
Theorem float_boundary :
  (forall e, -324 < e <= 0 ->
     cell_log (setup fresh) Math X e = Ok Fin /\
     cell_log (setup fresh) Numpy X e = Ok Fin) /\
  math_power X (-324) = Ok zero /\
  Float64.math_log zero = Raise ValueError /\
  numpy_log (setup fresh) zero = Raise RuntimeWarning /\
  reports (math_cell X) (-324) /\
  reports (numpy_cell (setup fresh) X) (-324) /\
  (forall fuel s, math_cell X fuel = Done s -> stdout s = [-324]) /\
  (forall fuel s, numpy_cell (setup fresh) X fuel = Done s -> stdout s = [-324]).
Proof.
  split; [| split; [| split; [| split; [| split; [| split; [| split]]]]]].
  - intros e He. split.
    + apply (cell_log_above_boundary Math). exact He.
    + apply (cell_log_above_boundary Numpy). exact He.
  - apply (float_underflow 324). lia.
  - reflexivity.
  - reflexivity.
  - exact math_reports.
  - exact numpy_reports.
  - intros fuel s Hw. apply (cell_done Math) in Hw. subst s. reflexivity.
  - intros fuel s Hw. apply (cell_done Numpy) in Hw. subst s. reflexivity.
Qed.

Lemma float_boundary_witness :
  -324 < -323 <= 0 /\
  cell_log (setup fresh) Math X (-323) = Ok Fin /\
  cell_log (setup fresh) Numpy X (-323) = Ok Fin.
Proof.
  split; [lia |]. apply (proj1 float_boundary (-323)). lia.
Defined.

(** C2. With [X = Decimal(10)], the exponent starting at 0 and the
    default context of the [decimal] module, the third cell prints
    -1000027: [Decimal(10) ** e] has a finite [ln()] for every exponent
    [e] with [-1000027 < e <= 0], [Decimal(10) ** -1000027] is the zero
    [0E-1000026], and the [ln()] of zero is equal to
    [Decimal("-Infinity")]. *)
Theorem decimal_boundary :
  decimal_context (setup fresh) = PyDecimal.DefaultContext /\
  (forall e, -1000027 < e <= 0 -> cell_log (setup fresh) Dec X e = Ok Fin) /\
  decimal_power (setup fresh) X (-1000027)
    = Ok (PyDecimal.DFinite false 0 (-1000026)) /\
  decimal_ln (setup fresh) (PyDecimal.DFinite false 0 (-1000026)) = Ok NegInf /\
  PyDecimal.eq_neg_infinity NegInf = true /\
  reports (decimal_cell (setup fresh) X) (-1000027) /\
  (forall fuel s,
     decimal_cell (setup fresh) X fuel = Done s -> stdout s = [-1000027]).
Proof.
  split; [reflexivity |].
  split; [intros e He; apply (cell_log_above_boundary Dec); exact He |].
  split; [apply (decimal_underflow 1000027); lia |].
  split; [reflexivity |]. split; [reflexivity |].
  split; [exact decimal_reports |].
  intros fuel s Hw. apply (cell_done Dec) in Hw. subst s.
  apply found_stdout. lia.
Qed.

Lemma decimal_boundary_witness :
  -1000027 < -1000026 <= 0 /\ cell_log (setup fresh) Dec X (-1000026) = Ok Fin.
Proof.
  split; [lia |]. apply (proj1 (proj2 decimal_boundary) (-1000026)). lia.
Defined.

(** C3, as the code has it.  For every base [X0 >= 2] the exponent
    starts at 0.  In the third cell, and in the first two cells when
    [X0 < 2 ** 1024 - 2 ** 970], every iteration of a run that is still
    searching takes [x = X0 ** power] and calls the logarithm on [x]
    once; if the call raises or returns minus infinity the cell sets
    [no_error] to false and prints the current exponent, otherwise it
    does neither; the exponent then goes down by one, and a loop whose
    [no_error] is false evaluates nothing more.  [2 ** 1024 - 2 ** 970]
    is the least integer that [float] rejects: from this base on, the
    first two cells call the logarithm once, at exponent 0, and then
    [X0 ** -1], which is taken on doubles and outside the [try] block,
    raises [OverflowError]; the loop is left with nothing printed. *)
Theorem probe_steps (X0 : Z) :
  2 <= X0 ->
  (power initial = 0 /\ no_error initial = true /\
   stdout initial = [] /\ calls initial = []) /\
  (step_contract (math_power X0) Float64.math_log
                 (try_except Float64.math_log) /\
   step_contract (math_power X0) (numpy_log (setup fresh))
                 (try_except (numpy_log (setup fresh))) /\
   step_contract (decimal_power (setup fresh) X0) (decimal_ln (setup fresh))
                 (check_sentinel (decimal_ln (setup fresh)))) /\
  (halts_when_reported (math_power X0) (try_except Float64.math_log) /\
   halts_when_reported (math_power X0) (try_except (numpy_log (setup fresh))) /\
   halts_when_reported (decimal_power (setup fresh) X0)
                       (check_sentinel (decimal_ln (setup fresh)))) /\
  probe_contract (decimal_power (setup fresh) X0) (decimal_ln (setup fresh))
                 (check_sentinel (decimal_ln (setup fresh))) /\
  (X0 < 2 ^ 1024 - 2 ^ 970 ->
   (exists iv, Float64.float_of_int X0 = Ok iv) /\
   probe_contract (math_power X0) Float64.math_log
                  (try_except Float64.math_log) /\
   probe_contract (math_power X0) (numpy_log (setup fresh))
                  (try_except (numpy_log (setup fresh)))) /\
  (2 ^ 1024 - 2 ^ 970 <= X0 ->
   Float64.float_of_int X0 = Raise OverflowError /\
   forall fuel,
     math_cell X0 (S (S fuel)) = Crashed OverflowError (searching 1) /\
     numpy_cell (setup fresh) X0 (S (S fuel))
     = Crashed OverflowError (searching 1)).
Proof.
  intros HX.
  assert (Hm : step_contract (math_power X0) Float64.math_log
                 (try_except Float64.math_log))
    by (apply try_except_contract; exact math_log_not_sentinel).
  assert (Hn : step_contract (math_power X0) (numpy_log (setup fresh))
                 (try_except (numpy_log (setup fresh))))
    by (apply try_except_contract; exact np_log_error_not_sentinel).
  assert (Hd : step_contract (decimal_power (setup fresh) X0)
                 (decimal_ln (setup fresh))
                 (check_sentinel (decimal_ln (setup fresh))))
    by (apply (check_sentinel_contract X0); exact HX).
  split; [repeat split |].
  split; [repeat split; assumption |].
  split; [repeat split; intros fuel s Hs; apply while_halted; exact Hs |].
  split; [| split].
  - apply contract_of_steps; [exact Hd |].
    intros k _. apply decimal_power_value; [exact HX | lia].
  - intros Hfit. split; [| split].
    + apply Rounding.float_of_int_fits. lia.
    + apply contract_of_steps; [exact Hm |].
      intros k. apply float_power_reached; [lia | reflexivity].
    + apply contract_of_steps; [exact Hn |].
      intros k. apply float_power_reached; [lia | reflexivity].
  - intros Hbig. split; [apply Rounding.float_of_int_overflows; exact Hbig |].
    intros fuel. split.
    + exact (float_cell_overflow X0 Float64.math_log Fin fuel Hbig eq_refl).
    + exact (float_cell_overflow X0 (numpy_log (setup fresh)) Fin fuel Hbig
               eq_refl).
Qed.

Lemma probe_steps_witness :
  2 <= 2 /\
  probe_contract (math_power 2) Float64.math_log (try_except Float64.math_log).
Proof.
  split; [lia |].
  refine (proj1 (proj2 (proj1 (proj2 (proj2 (proj2 (proj2
            (probe_steps 2 (Z.le_refl 2)))))) _))).
  apply Z.ltb_lt. vm_compute. reflexivity.
Defined.

(** C3 as stated fails for the base [2 ** 1024]: the cell of [math.log]
    takes the logarithm of [X ** 0 = 1], then [X ** -1] raises
    [OverflowError] ("int too large to convert to float") outside the
    [try] block; the loop is left at exponent -1, where no logarithm is
    called and nothing is printed. *)
Lemma huge_base_leaves_the_loop :
  2 <= 2 ^ 1024 /\
  math_cell (2 ^ 1024) 2 = Crashed OverflowError (searching 1) /\
  ~ probe_contract (math_power (2 ^ 1024)) Float64.math_log
                   (try_except Float64.math_log).
Proof.
  split; [apply Z.leb_le; vm_compute; reflexivity |].
  split; [vm_compute; reflexivity |].
  intros H. destruct (H 1%nat (searching 1)) as [x [Hx _]].
  - vm_compute. reflexivity.
  - vm_compute in Hx. discriminate.
Qed.

(** C4. In the third cell [Decimal.ln()] returns a value at every
    exponent [e <= 0] and never raises.  The cell decides by the
    comparison [y == Decimal("-Infinity")] alone: the comparison is
    true of minus infinity and of nothing else; when it is true the
    iteration sets [no_error] to false and prints the current exponent,
    and the loop ends there; when it is false neither is done.  The
    cell has no handler, so an exception of [ln()] would leave the
    loop.  Above -1000027 the logarithm is finite and the comparison
    false; at -1000027 the power has underflowed to the zero
    [0E-1000026], whose [ln()] is minus infinity: the cell ends there,
    printing -1000027, whatever the number of iterations allowed beyond
    1000027.  The same loop without the comparison is still searching
    after any number of iterations. *)
Theorem decimal_stops_by_sentinel :
  (forall e, e <= 0 ->
     exists x y, decimal_power (setup fresh) X e = Ok x /\
                 decimal_ln (setup fresh) x = Ok y) /\
  (forall s x y,
     decimal_power (setup fresh) X (power s) = Ok x ->
     decimal_ln (setup fresh) x = Ok y ->
     body (decimal_power (setup fresh) X)
          (check_sentinel (decimal_ln (setup fresh))) s
     = Next (decrement (if PyDecimal.eq_neg_infinity y
                        then report (called s) else called s))) /\
  (forall s x e,
     decimal_power (setup fresh) X (power s) = Ok x ->
     decimal_ln (setup fresh) x = Raise e ->
     body (decimal_power (setup fresh) X)
          (check_sentinel (decimal_ln (setup fresh))) s
     = Abort e (called s)) /\
  decimal_power (setup fresh) X (-1000027)
    = Ok (PyDecimal.DFinite false 0 (-1000026)) /\
  decimal_ln (setup fresh) (PyDecimal.DFinite false 0 (-1000026)) = Ok NegInf /\
  (forall fuel,
     while (decimal_power (setup fresh) X) (no_check (decimal_ln (setup fresh)))
           fuel initial = OutOfFuel (searching fuel)) /\
  (forall y, PyDecimal.eq_neg_infinity y = true <-> y = NegInf) /\
  (forall s,
     no_error (decrement (report (called s))) = false /\
     stdout (decrement (report (called s))) = stdout s ++ [power s] /\
     no_error (decrement (called s)) = no_error s /\
     stdout (decrement (called s)) = stdout s) /\
  (forall s x fuel,
     no_error s = true ->
     decimal_power (setup fresh) X (power s) = Ok x ->
     decimal_ln (setup fresh) x = Ok NegInf ->
     while (decimal_power (setup fresh) X)
           (check_sentinel (decimal_ln (setup fresh))) (S fuel) s
     = Done (decrement (report (called s)))) /\
  (forall e x y,
     -1000027 < e <= 0 ->
     decimal_power (setup fresh) X e = Ok x ->
     decimal_ln (setup fresh) x = Ok y ->
     PyDecimal.eq_neg_infinity y = false) /\
  (forall fuel,
     (Z.to_nat 1000027 < fuel)%nat ->
     decimal_cell (setup fresh) X fuel = Done (found (Z.to_nat 1000027))) /\
  no_error (found (Z.to_nat 1000027)) = false /\
  stdout (found (Z.to_nat 1000027)) = [-1000027] /\
  (forall fuel s,
     decimal_cell (setup fresh) X fuel = Done s -> stdout s = [-1000027]).
Proof.
  assert (Hbody : forall s x y,
            decimal_power (setup fresh) X (power s) = Ok x ->
            decimal_ln (setup fresh) x = Ok y ->
            body (decimal_power (setup fresh) X)
                 (check_sentinel (decimal_ln (setup fresh))) s
            = Next (decrement (if PyDecimal.eq_neg_infinity y
                               then report (called s) else called s))).
  { intros s x y Hx Hy. unfold body, check_sentinel, bind. rewrite Hx, Hy.
    reflexivity. }
  split; [| split; [| split; [| split; [| split; [| split; [| split;
    [| split; [| split; [| split; [| split; [| split; [| split]]]]]]]]]]]].
  - intros e He.
    assert (Hp : decimal_power (setup fresh) X e
                 = Ok (if - e <=? 1000026 then PyDecimal.DFinite false 1 e
                       else PyDecimal.DFinite false 0 (-1000026))).
    { unfold decimal_power, X. cbn [decimal_context setup fresh].
      rewrite <- (Z.opp_involutive e) at 1 3. apply pow_ten. lia. }
    rewrite Hp. destruct (- e <=? 1000026); eexists; eexists; split; reflexivity.
  - exact Hbody.
  - intros s x e Hx Hy. unfold body, check_sentinel, bind. rewrite Hx, Hy.
    reflexivity.
  - apply (decimal_underflow 1000027). lia.
  - reflexivity.
  - intros fuel. apply while_forever. intros j _.
    unfold probe_at, no_check, decimal_power, decimal_ln, X, bind.
    cbn [decimal_context setup fresh]. rewrite pow_ten by lia.
    destruct (Z.of_nat j <=? 1000026); reflexivity.
  - intros y. split; [destruct y; (discriminate || reflexivity) |].
    intros ->. reflexivity.
  - intros s. repeat split.
  - intros s x fuel Hs Hx Hy. cbn [while]. rewrite Hs, (Hbody s x NegInf Hx Hy).
    apply while_halted. reflexivity.
  - intros e x y He Hx Hy.
    pose proof (cell_log_above_boundary Dec e He) as Hlog.
    cbn [cell_log] in Hlog. unfold log_at, bind in Hlog.
    rewrite Hx, Hy in Hlog. injection Hlog as ->. reflexivity.
  - intros fuel Hfuel.
    replace fuel with (Z.to_nat 1000027 + S (fuel - Z.to_nat 1000027 - 1))%nat
      by lia.
    apply while_found; [exact decimal_goes_on | exact decimal_stops].
  - reflexivity.
  - apply found_stdout. lia.
  - intros fuel s Hw. apply (cell_done Dec) in Hw. subst s.
    apply found_stdout. lia.
Qed.

Lemma decimal_stops_by_sentinel_witness :
  -5 <= 0 /\
  exists x y, decimal_power (setup fresh) X (-5) = Ok x /\
              decimal_ln (setup fresh) x = Ok y.
Proof.
  split; [lia |]. apply (proj1 decimal_stops_by_sentinel (-5)). lia.
Defined.

(** C5. The first cell always installs the filter that turns warnings
    into errors, and the cell of [numpy.log] runs under it.  At the
    power [+0.0] [numpy.log] warns of a division by zero: under the
    filter the warning is raised as [RuntimeWarning] and the cell stops
    there, printing -324; without the filter the call returns minus
    infinity and the loop goes on past -324 (it is still searching after
    400 iterations). *)
Theorem warnings_are_escalated :
  (forall i, warnings_filter (setup i) = Float64.ActError) /\
  (forall fuel, run fuel = (math_cell X fuel, numpy_cell (setup fresh) X fuel,
                            decimal_cell (setup fresh) X fuel)) /\
  math_power X (-324) = Ok zero /\
  numpy_log fresh zero = Ok NegInf /\
  numpy_log (setup fresh) zero = Raise RuntimeWarning /\
  reports (numpy_cell (setup fresh) X) (-324) /\
  (forall fuel, (fuel <= 400)%nat ->
     numpy_cell fresh X fuel = OutOfFuel (searching fuel)).
Proof.
  split; [intros i; reflexivity |].
  split; [intros fuel; reflexivity |].
  split; [apply (float_underflow 324); lia |].
  split; [reflexivity |]. split; [reflexivity |].
  split; [exact numpy_reports |].
  intros fuel Hfuel. apply while_forever.
  intros j Hj. apply numpy_unfiltered_goes_on. lia.
Qed.

Lemma warnings_are_escalated_witness :
  (325 <= 400)%nat /\ numpy_cell fresh X 325 = OutOfFuel (searching 325).
Proof.
  split; [lia |].
  apply (proj2 (proj2 (proj2 (proj2 (proj2 (proj2 warnings_are_escalated)))))).
  lia.
Defined.

(** C6. In each of the three cells, when the cell prints the exponent
    [b], the logarithm of [10 ** (b + 1)] is returned and is finite (so
    it is not minus infinity either), and the logarithm of [10 ** b]
    raises or is minus infinity. *)
Theorem boundary_adjacency (c : backend) (b : Z) :
  reports (cell (setup fresh) c X) b ->
  cell_log (setup fresh) c X (b + 1) = Ok Fin /\
  cell_fails_at (setup fresh) c X b.
Proof.
  intros Hb. apply cell_boundary in Hb. subst b. split.
  - apply cell_log_above_boundary. destruct c; lia.
  - apply cell_fails_at_boundary.
Qed.

Lemma boundary_adjacency_witness :
  reports (cell (setup fresh) Math X) (-324) /\
  cell_log (setup fresh) Math X (-324 + 1) = Ok Fin /\
  cell_fails_at (setup fresh) Math X (-324).
Proof.
  split; [exact math_reports |].
  exact (boundary_adjacency Math (-324) math_reports).
Defined.

(** C7. In every run of the loop, for any power, any logarithm and any
    number of iterations, finished or not, the [n]-th call of the
    logarithm is at exponent [- n]: the exponents start at 0 and go
    down by exactly one per call, and none is used twice. *)
Theorem exponents_go_down_by_one {V : Type} (pow_op : Z -> result V)
        (attempt : V -> result bool) (fuel : nat) :
  (forall n, (n < length (calls (final (while pow_op attempt fuel initial))))%nat ->
     nth_error (calls (final (while pow_op attempt fuel initial))) n
     = Some (- Z.of_nat n)) /\
  NoDup (calls (final (while pow_op attempt fuel initial))).
Proof.
  pose proof (while_in_order pow_op attempt fuel initial initial_aligned) as H.
  unfold in_order in H. split.
  - intros n Hn. rewrite H. apply descent_nth. exact Hn.
  - rewrite H. apply descent_NoDup.
Qed.

Lemma exponents_go_down_by_one_witness :
  (2 < length (calls (final (math_cell X 5))))%nat /\
  nth_error (calls (final (math_cell X 5))) 2 = Some (-2).
Proof.
  split; [vm_compute; lia |].
  apply (proj1 (exponents_go_down_by_one (math_power X)
                  (try_except Float64.math_log) 5) 2%nat).
  vm_compute. lia.
Defined.

(** C8. Each of the three cells of the notebook ends after finitely
    many iterations, and it ends because the logarithm fails at one of
    the exponents it has reached: there the call raises or returns
    minus infinity. *)
Theorem every_cell_terminates (c : backend) :
  exists fuel s,
    cell (setup fresh) c X fuel = Done s /\
    exists e, In e (calls s) /\ e <= 0 /\ cell_fails_at (setup fresh) c X e.
Proof.
  assert (Hin : forall k, In (- Z.of_nat k) (calls (found k))).
  { intros k. cbn [found calls]. unfold descent. apply in_map_iff.
    exists k. split; [reflexivity | apply in_seq; lia]. }
  destruct c; cbn [cell].
  - exists (324 + 1)%nat, (found 324).
    split; [apply while_found; [exact math_goes_on | exact math_stops] |].
    exists (- Z.of_nat 324).
    split; [apply Hin | split; [lia | exact (cell_fails_at_boundary Math)]].
  - exists (324 + 1)%nat, (found 324).
    split; [apply while_found; [exact numpy_goes_on | exact numpy_stops] |].
    exists (- Z.of_nat 324).
    split; [apply Hin | split; [lia | exact (cell_fails_at_boundary Numpy)]].
  - exists (Z.to_nat 1000027 + 1)%nat, (found (Z.to_nat 1000027)).
    split; [apply while_found; [exact decimal_goes_on | exact decimal_stops] |].
    exists (- Z.of_nat (Z.to_nat 1000027)).
    split; [apply Hin | split; [lia |]].
    rewrite Z2Nat.id by lia. exact (cell_fails_at_boundary Dec).
Qed.

(** C9. Two runs of the same cell, with the same base and the same
    interpreter state, that both end, end in the same state: they print
    the same exponent, however many iterations each was allowed. *)
Theorem probe_is_deterministic (i : interpreter) (c : backend) (X0 : Z)
        (fuel1 fuel2 : nat) (s1 s2 : state) :
  cell i c X0 fuel1 = Done s1 ->
  cell i c X0 fuel2 = Done s2 ->
  s1 = s2 /\ stdout s1 = stdout s2.
Proof.
  intros H1 H2.
  assert (H : Done s1 = Done s2).
  { rewrite <- H1, <- H2. revert H1 H2.
    destruct c; cbn [cell]; unfold math_cell, numpy_cell, decimal_cell;
      intros H1 H2; apply while_deterministic;
      first [ rewrite H1 | rewrite H2 ]; reflexivity. }
  injection H as <-. split; reflexivity.
Qed.

Lemma probe_is_deterministic_witness :
  cell (setup fresh) Math X (324 + 1) = Done (found 324) /\
  cell (setup fresh) Math X (324 + 2) = Done (found 324) /\
  found 324 = found 324 /\ stdout (found 324) = stdout (found 324).
Proof.
  pose proof (while_found (math_power X) (try_except Float64.math_log)
                324 0 math_goes_on math_stops) as H1.
  pose proof (while_found (math_power X) (try_except Float64.math_log)
                324 1 math_goes_on math_stops) as H2.
  split; [exact H1 |]. split; [exact H2 |].
  exact (probe_is_deterministic (setup fresh) Math X (324 + 1) (324 + 2)
           (found 324) (found 324) H1 H2).
Defined.

(** C10. In a cell written with [try] and a bare [except], as the cells
    of [math.log] and [numpy.log] are, whatever exception the call of
    the logarithm raises, of any class, the cell sets [no_error] to
    false and prints the current exponent, and the loop ends there; and
    an exception that leaves the loop was raised by the power
    [X ** power], which is taken before the [try], never inside the
    [try] block. *)
Theorem bare_except_catches_everything {V : Type} (pow_op : Z -> result V)
        (log_fn : V -> result logval) (s : state) (x : V) (e : exn) :
  no_error s = true ->
  pow_op (power s) = Ok x ->
  log_fn x = Raise e ->
  body pow_op (try_except log_fn) s = Next (decrement (report (called s))) /\
  (forall fuel,
     while pow_op (try_except log_fn) (S fuel) s
     = Done (decrement (report (called s)))) /\
  no_error (decrement (report (called s))) = false /\
  stdout (decrement (report (called s))) = stdout s ++ [power s] /\
  (forall fuel s0 e' s',
     while pow_op (try_except log_fn) fuel s0 = Crashed e' s' ->
     pow_op (power s') = Raise e').
Proof.
  intros Hs Hx Hy.
  assert (Hb : body pow_op (try_except log_fn) s
               = Next (decrement (report (called s))))
    by (unfold body, try_except; rewrite Hx, Hy; reflexivity).
  split; [exact Hb |]. split; [| split; [reflexivity | split; [reflexivity |]]].
  - intros fuel. cbn [while]. rewrite Hs, Hb. apply while_halted. reflexivity.
  - intros fuel s0 e' s' Hw.
    apply while_crashed_inv in Hw. destruct Hw as [s1 Hb1].
    apply try_except_abort in Hb1. destruct Hb1 as [-> Hp]. exact Hp.
Qed.

Lemma bare_except_catches_everything_witness :
  no_error (searching 324) = true /\
  math_power X (power (searching 324)) = Ok zero /\
  Float64.math_log zero = Raise ValueError /\
  body (math_power X) (try_except Float64.math_log) (searching 324)
  = Next (decrement (report (called (searching 324)))).
Proof.
  assert (Hx : math_power X (power (searching 324)) = Ok zero)
    by (apply (float_underflow 324); lia).
  split; [reflexivity |]. split; [exact Hx |]. split; [reflexivity |].
  exact (proj1 (bare_except_catches_everything (math_power X) Float64.math_log
                  (searching 324) zero ValueError eq_refl Hx eq_refl)).
Defined.

End Claims.

(* ------------------------------------------------------------------ *)
(** * Further properties of the cells *)

Module Extras.
Import Probe Notebook LoopFacts BackendFacts BaseFacts.

(** ** The loop, for any power and any logarithm *)

Section Loop.
Context {V : Type}.
Variable pow_op : Z -> result V.
Variable attempt : V -> result bool.

(** A loop that was left by an exception was searching, and the
    exception came from the power or from the call that followed. *)
Lemma while_crashed_shape (fuel : nat) : forall (i : nat) (e : exn) (s : state),
  while pow_op attempt fuel (searching i) = Crashed e s ->
  exists k, s = searching k \/ s = called (searching k).
Proof.
  induction fuel as [| fuel IH]; intros i e s;
    cbn [while searching no_error]; [discriminate |].
  fold_searching i.
  destruct (body pow_op attempt (searching i)) as [s' | e' s'] eqn:Hb.
  - apply body_next_inv in Hb. destruct Hb as [failed [_ ->]].
    destruct failed.
    + rewrite searching_stop. destruct fuel; discriminate.
    + rewrite searching_next. apply IH.
  - intros [= <- <-]. exists i. revert Hb. unfold body.
    destruct (pow_op (power (searching i))) as [x | e0].
    + destruct (attempt x); [discriminate | intros [= _ <-]; right; reflexivity].
    + intros [= _ <-]. left. reflexivity.
Qed.

(** Two ways of taking the logarithm that give the same verdict on
    every power of a non-positive exponent give the same runs. *)
Lemma while_agree (attempt' : V -> result bool) :
  (forall e x, e <= 0 -> pow_op e = Ok x -> attempt x = attempt' x) ->
  forall (fuel : nat) (s : state),
    power s <= 0 -> while pow_op attempt fuel s = while pow_op attempt' fuel s.
Proof.
  intros Hsame. induction fuel as [| fuel IH]; intros s Hs; cbn [while].
  - reflexivity.
  - destruct (no_error s); [| reflexivity].
    unfold body. destruct (pow_op (power s)) as [x | e] eqn:Hx; [| reflexivity].
    rewrite <- (Hsame (power s) x Hs Hx).
    destruct (attempt x) as [failed | e]; [| reflexivity].
    apply IH. destruct failed; cbn [decrement report called power]; lia.
Qed.

End Loop.

(** X1. When the loop ends, for any power and any logarithm, it has
    printed exactly one exponent [b <= 0], the variable [power] is left
    at [b - 1] (the decrement is also done in the iteration that
    reports), and the logarithm has been called [1 - b] times. *)
Theorem finished_run_shape {V : Type} (pow_op : Z -> result V)
        (attempt : V -> result bool) (fuel : nat) (s : state) :
  while pow_op attempt fuel initial = Done s ->
  exists b, stdout s = [b] /\ b <= 0 /\ power s = b - 1 /\
            Z.of_nat (length (calls s)) = 1 - b /\ no_error s = false.
Proof.
  intros Hw. change initial with (searching 0) in Hw.
  apply while_done_inv in Hw. destruct Hw as [k [_ [-> _]]].
  exists (- Z.of_nat k). cbn [found stdout power calls no_error].
  rewrite descent_length. repeat split; lia.
Qed.

Lemma finished_run_shape_witness :
  math_cell X (324 + 1) = Done (found 324) /\
  exists b, stdout (found 324) = [b] /\ b <= 0 /\ power (found 324) = b - 1 /\
            Z.of_nat (length (calls (found 324))) = 1 - b /\
            no_error (found 324) = false.
Proof.
  pose proof (while_found (math_power X) (try_except Float64.math_log)
                324 0 math_goes_on math_stops) as H.
  split; [exact H |].
  exact (finished_run_shape (math_power X) (try_except Float64.math_log)
           (324 + 1) (found 324) H).
Defined.

(** X2. A run that has not ended, or that was left by an exception,
    has printed nothing, and its [no_error] is still true: a line is
    printed only by the iteration that ends the loop. *)
Theorem unfinished_run_is_silent {V : Type} (pow_op : Z -> result V)
        (attempt : V -> result bool) (fuel : nat) :
  match while pow_op attempt fuel initial with
  | Done s => length (stdout s) = 1%nat
  | Crashed _ s | OutOfFuel s => stdout s = [] /\ no_error s = true
  end.
Proof.
  destruct (while pow_op attempt fuel initial) as [s | e s | s] eqn:Hw;
    change initial with (searching 0) in Hw.
  - apply while_done_inv in Hw. destruct Hw as [k [_ [-> _]]]. reflexivity.
  - apply while_crashed_shape in Hw. destruct Hw as [k [-> | ->]];
      split; reflexivity.
  - apply while_searching_inv in Hw. destruct Hw as [k [_ [-> _]]].
    split; reflexivity.
Qed.

(** X3. The exponent that a run prints is the first one, counting down
    from 0, at which the iteration stops: at the printed exponent the
    verdict is to stop, and at every exponent above it, up to 0, the
    verdict was to go on. *)
Theorem reported_exponent_is_first_stop {V : Type} (pow_op : Z -> result V)
        (attempt : V -> result bool) (fuel : nat) (s : state) (b : Z) :
  while pow_op attempt fuel initial = Done s ->
  stdout s = [b] ->
  probe_at pow_op attempt b = Ok true /\
  (forall e, b < e <= 0 -> probe_at pow_op attempt e = Ok false).
Proof.
  intros Hw Hb. change initial with (searching 0) in Hw.
  apply while_done_inv in Hw. destruct Hw as [k [_ [-> [Hgo Hstop]]]].
  cbn [found stdout] in Hb. injection Hb as <-. split; [exact Hstop |].
  intros e He. rewrite <- (Z.opp_involutive e), <- (Z2Nat.id (- e)) by lia.
  apply Hgo. lia.
Qed.

Lemma reported_exponent_is_first_stop_witness :
  math_cell X (324 + 1) = Done (found 324) /\
  stdout (found 324) = [-324] /\
  probe_at (math_power X) (try_except Float64.math_log) (-324) = Ok true.
Proof.
  pose proof (while_found (math_power X) (try_except Float64.math_log)
                324 0 math_goes_on math_stops) as H.
  split; [exact H |]. split; [reflexivity |].
  exact (proj1 (reported_exponent_is_first_stop (math_power X)
                  (try_except Float64.math_log) (324 + 1) (found 324) (-324)
                  H eq_refl)).
Defined.

(** ** Signs of doubles *)

Section RoundSign.
Variables prec emax : Z.

Lemma shr_1_nonneg (mrs : shr_record) :
  0 <= shr_m mrs -> 0 <= shr_m (shr_1 mrs).
Proof.
  destruct mrs as [m r s]. cbn [shr_m].
  destruct m as [| [p | p |] | p]; cbn; lia.
Qed.

Lemma iter_pos_nonneg (p : positive) : forall mrs,
  0 <= shr_m mrs -> 0 <= shr_m (iter_pos shr_1 p mrs).
Proof.
  induction p as [p IH | p IH |]; intros mrs H; cbn [iter_pos].
  - apply IH, IH, shr_1_nonneg, H.
  - apply IH, IH, H.
  - apply shr_1_nonneg, H.
Qed.

Lemma shr_fexp_nonneg (m e : Z) (l : location) :
  0 <= m -> 0 <= shr_m (fst (shr_fexp prec emax m e l)).
Proof.
  intros Hm. unfold shr_fexp, shr.
  assert (H0 : 0 <= shr_m (shr_record_of_loc m l))
    by (destruct l as [| []]; exact Hm).
  destruct (fexp prec emax (Zdigits2 m + e) - e); cbn [fst]; try exact H0.
  apply iter_pos_nonneg, H0.
Qed.

Lemma round_nearest_even_nonneg (m : Z) (l : location) :
  0 <= m -> 0 <= round_nearest_even m l.
Proof.
  intros Hm. destruct l as [| []]; cbn [round_nearest_even]; try lia.
  destruct (Z.even m); lia.
Qed.

(** Rounding a non-negative mantissa gives a number of the sign asked
    for, never NaN. *)
Lemma binary_round_aux_signed (s : bool) (m e : Z) (l : location) :
  0 <= m -> Float64.signed s (binary_round_aux prec emax s m e l).
Proof.
  intros Hm. unfold binary_round_aux.
  pose proof (shr_fexp_nonneg m e l Hm) as H1.
  destruct (shr_fexp prec emax m e l) as [mrs' e']. cbn [fst] in H1.
  pose proof (shr_fexp_nonneg _ e' loc_Exact
                (round_nearest_even_nonneg _ (loc_of_shr_record mrs') H1)) as H2.
  destruct (shr_fexp prec emax _ e' loc_Exact) as [mrs'' e'']. cbn [fst] in H2.
  destruct (shr_m mrs'') as [| p | p]; [reflexivity | | lia].
  destruct (e'' <=? emax - prec); reflexivity.
Qed.

Lemma SFdiv_signed (s1 s2 : bool) (m1 m2 : positive) (e1 e2 : Z) :
  Float64.signed (xorb s1 s2)
    (SFdiv prec emax (S754_finite s1 m1 e1) (S754_finite s2 m2 e2)).
Proof.
  cbn [SFdiv]. unfold SFdiv_core_binary.
  match goal with |- context [Z.div_eucl ?a ?b] =>
    pose proof (Z.div_eucl_eq a b ltac:(lia)) as Heq;
    pose proof (Z.mod_pos_bound a b ltac:(lia)) as Hmod;
    assert (Ha : 0 <= a);
    [| unfold Z.modulo in Hmod; destruct (Z.div_eucl a b) as [q r] eqn:Hd ]
  end.
  - destruct (e1 - e2 - _); try lia. rewrite Z.shiftl_mul_pow2 by lia.
    apply Z.mul_nonneg_nonneg; [lia | apply Z.pow_nonneg; lia].
  - apply binary_round_aux_signed. nia.
Qed.

Lemma binary_normalize_signed (n : Z) :
  n <> 0 -> Float64.signed (n <? 0) (binary_normalize prec emax n 0 false).
Proof.
  intros Hn. destruct n as [| p | p]; [contradiction | |];
    cbn [binary_normalize Z.ltb Z.compare]; unfold binary_round;
    destruct (shl_align _ _ _) as [mz ez]; apply binary_round_aux_signed; lia.
Qed.

End RoundSign.

(** [iv ** -k] for a double [iv] of sign [s]: zero or finite, negative
    exactly when [iv] is negative and [k] is odd. *)
Lemma float_pow_neg_signed (s : bool) (iv r : spec_float) (k : positive) :
  Float64.signed s iv ->
  Float64.float_pow_neg iv k = Ok r ->
  Float64.signed (s && Z.odd (Zpos k)) r /\ (forall s', r <> S754_infinity s').
Proof.
  destruct iv as [sv | sv | | sv mv ev]; cbn [Float64.signed Float64.float_pow_neg].
  - discriminate.
  - intros -> [= <-]. split; [reflexivity | discriminate].
  - intros [].
  - intros ->. destruct (Float64.trim mv ev) as [m1 e1].
    pose proof (SFdiv_signed Float64.prec Float64.emax false
                  (s && Z.odd (Zpos k)) 1 (Pos.pow m1 k) 0 (e1 * Zpos k)) as Hs.
    cbn [xorb] in Hs.
    destruct (SFdiv _ _ _ _) as [sr | sr | | sr mr er];
      try discriminate; intros [= <-]; (split; [exact Hs | discriminate]).
Qed.

(** [X ** power] for a negative [power] and [X <> 0]: a double that is
    zero or finite, and negative only if [X] is. *)
Lemma int_pow_negative (base e : Z) (x : Float64.pyval) :
  base <> 0 -> e < 0 -> Float64.int_pow base e = Ok x ->
  exists r k, x = Float64.VFloat r /\
    Float64.signed ((base <? 0) && Z.odd (Zpos k)) r /\
    (forall s, r <> S754_infinity s) /\
    k = Z.to_pos (- Float64.int_of_float
                      (binary_normalize Float64.prec Float64.emax e 0 false)).
Proof.
  intros Hb He. unfold Float64.int_pow, Float64.float_of_int, bind.
  destruct (Z.leb_spec 0 e) as [? | _]; [lia |].
  pose proof (binary_normalize_signed Float64.prec Float64.emax base Hb) as Hs.
  set (iv := binary_normalize Float64.prec Float64.emax base 0 false) in *.
  set (iw := binary_normalize Float64.prec Float64.emax e 0 false).
  assert (Hiv : forall k,
             match Float64.float_pow_neg iv k with
             | Ok a => Ok (Float64.VFloat a)
             | Raise e0 => Raise e0
             end = Ok x ->
             exists r, x = Float64.VFloat r /\
               Float64.signed ((base <? 0) && Z.odd (Zpos k)) r /\
               (forall s, r <> S754_infinity s)).
  { intros k.
    destruct (Float64.float_pow_neg iv k) as [r |] eqn:Hp; [| discriminate].
    intros [= <-]. exists r. split; [reflexivity |].
    exact (float_pow_neg_signed _ iv r k Hs Hp). }
  assert (Hgo : forall f,
             match Float64.float_pow_neg iv
                     (Z.to_pos (- Float64.int_of_float f)) with
             | Ok a => Ok (Float64.VFloat a)
             | Raise e0 => Raise e0
             end = Ok x ->
             exists r k, x = Float64.VFloat r /\
               Float64.signed ((base <? 0) && Z.odd (Zpos k)) r /\
               (forall s, r <> S754_infinity s) /\
               k = Z.to_pos (- Float64.int_of_float f)).
  { intros f H. destruct (Hiv _ H) as [r [Hx [Hr Hinf]]].
    exists r, (Z.to_pos (- Float64.int_of_float f)).
    repeat split; assumption. }
  destruct iv as [sv | sv | | sv mv ev]; try discriminate;
    destruct iw; try discriminate; apply Hgo.
Qed.

(** ** The verdict of an iteration, read back *)

Lemma try_except_verdict_inv {V} (pow_op : Z -> result V)
      (log_fn : V -> result logval) (e : Z) (failed : bool) :
  probe_at pow_op (try_except log_fn) e = Ok failed ->
  exists x, pow_op e = Ok x /\
    if failed then exists ex, log_fn x = Raise ex
    else exists y, log_fn x = Ok y.
Proof.
  unfold probe_at, try_except, bind.
  destruct (pow_op e) as [x | ex]; [| discriminate].
  destruct (log_fn x) as [y | ex] eqn:Hy; intros [= <-]; exists x;
    (split; [reflexivity | eexists; exact Hy]).
Qed.

Lemma check_sentinel_verdict_inv {V} (pow_op : Z -> result V)
      (ln : V -> result logval) (e : Z) (failed : bool) :
  probe_at pow_op (check_sentinel ln) e = Ok failed ->
  exists x y, pow_op e = Ok x /\ ln x = Ok y /\ is_neg_inf y = failed.
Proof.
  unfold probe_at, check_sentinel, bind.
  destruct (pow_op e) as [x | ex]; [| discriminate].
  destruct (ln x) as [y | ex] eqn:Hy; [| discriminate].
  intros [= <-]. exists x, y.
  split; [reflexivity | split; [exact Hy | reflexivity]].
Qed.

Lemma int_pow_is_float (base e : Z) (x : Float64.pyval) :
  e < 0 -> Float64.int_pow base e = Ok x -> exists r, x = Float64.VFloat r.
Proof.
  intros He. unfold Float64.int_pow, bind.
  destruct (Z.leb_spec 0 e) as [? | _]; [lia |].
  destruct (Float64.float_of_int base) as [iv |]; [| discriminate].
  destruct (Float64.float_of_int e) as [iw |]; [| discriminate].
  destruct (Float64.float_pow_neg iv _) as [r |]; [| discriminate].
  intros [= <-]. exists r. reflexivity.
Qed.

(** With the filter, [math.log] and [numpy.log] raise on the same
    doubles. *)
Lemma float_verdicts_agree (base e : Z) (x : Float64.pyval) :
  e <= 0 -> math_power base e = Ok x ->
  try_except Float64.math_log x
  = try_except (Float64.np_log Float64.ActError) x.
Proof.
  intros He Hx. unfold math_power in Hx.
  destruct (Z.eq_dec e 0) as [-> | Hne].
  - rewrite int_pow_zero in Hx. injection Hx as <-. reflexivity.
  - destruct (int_pow_is_float base e x ltac:(lia) Hx) as [r ->].
    destruct r as [s | [] | | [] m q]; reflexivity.
Qed.

(** X4. For every base and every number of iterations, the cell of
    [math.log] and the cell of [numpy.log] under the filter of cell 1
    do the same thing: they call the logarithm at the same exponents
    and print the same line, or are left by the same exception. *)
Theorem float_cells_agree (i : interpreter) (base : Z) (fuel : nat) :
  math_cell base fuel = numpy_cell (setup i) base fuel.
Proof.
  unfold math_cell, numpy_cell, numpy_log. cbn [warnings_filter setup].
  apply while_agree; [| cbn; lia].
  intros e x He Hx. exact (float_verdicts_agree base e x He Hx).
Qed.

(** Without the filter [numpy.log] never raises on what the power
    returns. *)
Lemma numpy_unfiltered_never_stops (base e : Z) :
  e <= 0 ->
  probe_at (math_power base) (try_except (Float64.np_log Float64.ActDefault)) e
  <> Ok true.
Proof.
  intros He H. apply try_except_verdict_inv in H.
  destruct H as [x [Hx [ex Hlog]]]. unfold math_power in Hx.
  destruct (Z.eq_dec e 0) as [-> | Hne].
  - rewrite int_pow_zero in Hx. injection Hx as <-. discriminate.
  - destruct (int_pow_is_float base e x ltac:(lia) Hx) as [r ->].
    destruct r as [s | [] | | [] m q]; discriminate.
Qed.

(** X11. Without [warnings.filterwarnings("error")] the cell of
    [numpy.log] never prints, for any base and any number of
    iterations: [numpy.log] returns minus infinity or NaN with a
    warning where [math.log] raises, so the [except] branch is never
    taken. *)
Theorem numpy_needs_the_filter (i : interpreter) (base : Z) (fuel : nat)
        (s : state) :
  warnings_filter i = Float64.ActDefault ->
  numpy_cell i base fuel <> Done s.
Proof.
  intros Hi Hw. unfold numpy_cell, numpy_log in Hw. rewrite Hi in Hw.
  change initial with (searching 0) in Hw.
  apply while_done_inv in Hw. destruct Hw as [k [_ [_ [_ Hstop]]]].
  revert Hstop. apply numpy_unfiltered_never_stops. lia.
Qed.

Lemma numpy_needs_the_filter_witness :
  warnings_filter fresh = Float64.ActDefault /\
  numpy_cell fresh X 400 <> Done (found 324).
Proof.
  split; [reflexivity |].
  exact (numpy_needs_the_filter fresh X 400 (found 324) eq_refl).
Defined.

(** The first iteration, at exponent 0, always goes on: [X ** 0] is 1
    and its logarithm is 0 (in the third cell, [Decimal(0) ** 0] raises
    or is NaN, which is not minus infinity either). *)
Lemma first_iteration_never_stops (i : interpreter) (c : backend) (base : Z)
      (fuel : nat) (s : state) :
  cell i c base fuel = Done s -> s <> found 0.
Proof.
  intros Hw Hs. subst s. destruct c; cbn [cell] in Hw;
    unfold math_cell, numpy_cell, decimal_cell in Hw;
    change initial with (searching 0) in Hw;
    apply while_done_inv in Hw; destruct Hw as [k [_ [Hk [_ Hstop]]]];
    assert (k = 0%nat)
      by (apply (f_equal power) in Hk; cbn [found power] in Hk; lia);
    subst k; cbn [Z.of_nat Z.opp] in Hstop.
  - apply try_except_verdict_inv in Hstop. destruct Hstop as [x [Hx [ex Hl]]].
    unfold math_power in Hx. rewrite int_pow_zero in Hx. injection Hx as <-.
    discriminate.
  - apply try_except_verdict_inv in Hstop. destruct Hstop as [x [Hx [ex Hl]]].
    unfold math_power in Hx. rewrite int_pow_zero in Hx. injection Hx as <-.
    unfold numpy_log in Hl. destruct (warnings_filter i); discriminate.
  - apply check_sentinel_verdict_inv in Hstop.
    destruct Hstop as [x [y [Hx [Hy Hinf]]]].
    unfold decimal_power, decimal_ln, PyDecimal.pow, PyDecimal.of_int in Hx, Hy.
    cbn [Z.eqb] in Hx.
    destruct (Z.abs base =? 0).
    + unfold PyDecimal.raise_error in Hx. cbn [find] in Hx.
      destruct (PyDecimal.traps (decimal_context i) InvalidOperation);
        [discriminate |].
      injection Hx as <-. cbn in Hy. injection Hy as <-. discriminate.
    + injection Hx as <-. cbn in Hy. injection Hy as <-. discriminate.
Qed.

(** X6. Whatever the base, the backend and the interpreter state, a
    cell never prints 0 or a positive exponent: the exponent it prints
    is at most -1. *)
Theorem boundary_is_negative (i : interpreter) (c : backend) (base b : Z) :
  reports (cell i c base) b -> b <= -1.
Proof.
  intros [fuel [s [Hw Hb]]].
  pose proof (first_iteration_never_stops i c base fuel s Hw) as Hne.
  assert (Hk : exists k, s = found k).
  { destruct c; cbn [cell] in Hw;
      unfold math_cell, numpy_cell, decimal_cell in Hw;
      change initial with (searching 0) in Hw;
      apply while_done_inv in Hw; destruct Hw as [k [_ [-> _]]];
      exists k; reflexivity. }
  destruct Hk as [k ->]. cbn [found stdout] in Hb. injection Hb as <-.
  destruct k; [contradiction | lia].
Qed.

Lemma boundary_is_negative_witness :
  reports (cell (setup fresh) Math X) (-324) /\ -324 <= -1.
Proof.
  split; [exact Claims.math_reports |].
  exact (boundary_is_negative (setup fresh) Math X (-324) Claims.math_reports).
Defined.

(** X7. With the base 0 no cell prints anything: in the first two
    cells [0 ** -1] raises [ZeroDivisionError] outside the [try], after
    one call of the logarithm; in the third cell [Decimal(0) ** 0]
    raises [InvalidOperation] before any call. *)
Theorem zero_base_is_rejected (i : interpreter) (fuel : nat) :
  math_cell 0 (S (S fuel)) = Crashed ZeroDivisionError (searching 1) /\
  numpy_cell i 0 (S (S fuel)) = Crashed ZeroDivisionError (searching 1) /\
  decimal_cell (setup fresh) 0 (S fuel)
  = Crashed (DecimalException InvalidOperation) initial.
Proof.
  split; [| split].
  - vm_compute. reflexivity.
  - unfold numpy_cell, numpy_log. destruct (warnings_filter i);
      vm_compute; reflexivity.
  - vm_compute. reflexivity.
Qed.

(** ** Signs of decimals *)

(** A power of a non-zero base, for a non-zero exponent, is negative
    exactly when the base is negative and the exponent is odd. *)
Lemma pow_sign_general (ctx : PyDecimal.context) (base e : Z)
      (x : PyDecimal.decimal) :
  base <> 0 -> e <> 0 ->
  PyDecimal.pow ctx (PyDecimal.of_int base) e = Ok x ->
  PyDecimal.has_sign ((base <? 0) && Z.odd e) x.
Proof.
  intros Hb He. unfold PyDecimal.pow, PyDecimal.of_int.
  destruct (Z.eqb_spec e 0) as [? | _]; [contradiction |].
  destruct (Z.eqb_spec (Z.abs base) 0) as [? | _]; [lia |].
  destruct (0 <? e); [apply fix_sign |].
  destruct (PyDecimal.strip (Z.abs base) 0) as [xc xe].
  destruct (xc =? 1); [apply fix_sign | apply round_ratio_sign].
Qed.

(** In the default context an overflow is trapped, so a rounding that
    returns, returns a finite number. *)
Lemma finish_default_finite (s : bool) (coeff e : Z) (changed subnormal : bool)
      (x : PyDecimal.decimal) :
  PyDecimal.finish PyDecimal.DefaultContext s coeff e changed subnormal = Ok x ->
  exists c q, x = PyDecimal.DFinite s c q.
Proof.
  unfold PyDecimal.finish.
  destruct (PyDecimal.prec PyDecimal.DefaultContext <? PyDecimal.ndigits coeff);
    match goal with |- context [if ?b then PyDecimal.overflow _ _ else _] =>
      destruct b end;
    try discriminate;
    intros H; apply raise_error_ok in H; subst x; eexists; eexists; reflexivity.
Qed.

Lemma fix_default_finite (s : bool) (c e : Z) (x : PyDecimal.decimal) :
  PyDecimal.fix_ PyDecimal.DefaultContext s c e = Ok x ->
  exists c' q, x = PyDecimal.DFinite s c' q.
Proof.
  unfold PyDecimal.fix_.
  destruct (c =? 0).
  { intros H; apply raise_error_ok in H; subst x; eexists; eexists; reflexivity. }
  match goal with |- context [if ?b then PyDecimal.overflow _ _ else _] =>
    destruct b end; [discriminate |].
  match goal with |- context [if e <? ?m then _ else _] => destruct (e <? m) end.
  - match goal with |- context [if ?b then (1, _) else _] => destruct b end;
      apply finish_default_finite.
  - intros H; apply raise_error_ok in H; subst x; eexists; eexists; reflexivity.
Qed.

Lemma round_ratio_default_finite (s : bool) (num den q : Z)
      (x : PyDecimal.decimal) :
  PyDecimal.round_ratio PyDecimal.DefaultContext s num den q = Ok x ->
  exists c' q', x = PyDecimal.DFinite s c' q'.
Proof.
  unfold PyDecimal.round_ratio.
  match goal with |- context [let '(n, d) := ?p in _] => destruct p as [n d] end.
  apply finish_default_finite.
Qed.

Lemma pow_default_finite (base e : Z) (x : PyDecimal.decimal) :
  base <> 0 ->
  PyDecimal.pow PyDecimal.DefaultContext (PyDecimal.of_int base) e = Ok x ->
  exists s c q, x = PyDecimal.DFinite s c q /\
    (e <> 0 -> s = (base <? 0) && Z.odd e) /\ (e = 0 -> s = false /\ c = 1).
Proof.
  intros Hb. unfold PyDecimal.pow, PyDecimal.of_int.
  destruct (Z.eqb_spec (Z.abs base) 0) as [? | _]; [lia |].
  destruct (Z.eqb_spec e 0) as [He | He].
  - intros [= <-]. do 3 eexists. split; [reflexivity |].
    split; [contradiction | split; reflexivity].
  - assert (Hfin : forall y, (exists c' q', y = PyDecimal.DFinite
                                ((base <? 0) && Z.odd e) c' q') ->
                   exists s c q, y = PyDecimal.DFinite s c q /\
                     (e <> 0 -> s = (base <? 0) && Z.odd e) /\
                     (e = 0 -> s = false /\ c = 1)).
    { intros y [c' [q' ->]]. do 3 eexists. split; [reflexivity |].
      split; [reflexivity | contradiction]. }
    destruct (0 <? e); [intros H; apply Hfin, (fix_default_finite _ _ _ _ H) |].
    destruct (PyDecimal.strip (Z.abs base) 0) as [xc xe].
    destruct (xc =? 1); intros H; apply Hfin.
    + exact (fix_default_finite _ _ _ _ H).
    + exact (round_ratio_default_finite _ _ _ _ _ H).
Qed.

(** ** Bases other than 10 *)

(** X8. With the base 1 the third cell never ends: [Decimal(1) ** power]
    is 1 at every exponent, its [ln()] is 0 and never minus infinity,
    so after any number of iterations the loop is still searching. *)
Theorem decimal_base_one_never_ends (fuel : nat) :
  decimal_cell (setup fresh) 1 fuel = OutOfFuel (searching fuel).
Proof.
  apply while_forever. intros j _.
  unfold probe_at, check_sentinel, decimal_power, decimal_ln, bind.
  cbn [decimal_context setup fresh].
  assert (Hp : PyDecimal.pow PyDecimal.DefaultContext (PyDecimal.of_int 1)
                 (- Z.of_nat j) = Ok (PyDecimal.DFinite false 1 0)).
  { unfold PyDecimal.pow, PyDecimal.of_int.
    change (1 <? 0) with false. change (Z.abs 1) with 1. cbn [andb].
    change (1 =? 0) with false. cbv iota.
    destruct (Z.eqb_spec (- Z.of_nat j) 0) as [_ | Hnz]; [reflexivity |].
    destruct (Z.ltb_spec 0 (- Z.of_nat j)) as [? | _]; [lia |].
    change (PyDecimal.strip 1 0) with (1, 0). cbv iota beta.
    change (1 =? 1) with true. cbv iota.
    replace (0 * - Z.of_nat j) with 0 by lia. reflexivity. }
  rewrite Hp. reflexivity.
Qed.

(** With a negative base the iteration at exponent -1 never goes on:
    the power is negative (or a negative zero) and its logarithm
    raises; in the third cell the exception leaves the loop. *)
Lemma negative_base_stops_at_minus_1 (c : backend) (base : Z) :
  base < 0 ->
  match c with
  | Math => probe_at (math_power base) (try_except Float64.math_log) (-1)
  | Numpy => probe_at (math_power base) (try_except (numpy_log (setup fresh))) (-1)
  | Dec => probe_at (decimal_power (setup fresh) base)
                    (check_sentinel (decimal_ln (setup fresh))) (-1)
  end <> Ok false.
Proof.
  intros Hb.
  assert (Hfloat : forall x, math_power base (-1) = Ok x ->
             exists r, x = Float64.VFloat r /\
               match r with
               | S754_zero true | S754_finite true _ _ => True
               | _ => False
               end).
  { intros x Hx.
    destruct (int_pow_negative base (-1) x ltac:(lia) ltac:(lia) Hx)
      as [r [k [-> [Hs [Hinf Hk]]]]].
    exists r. split; [reflexivity |].
    assert (k = 1%positive) by (subst k; vm_compute; reflexivity). subst k.
    destruct (Z.ltb_spec base 0) as [_ | ?]; [| lia].
    cbn [andb Z.odd] in Hs.
    destruct r as [s | s | | s m q]; cbn [Float64.signed] in Hs;
      try subst s; try exact I; try contradiction.
    exact (Hinf true eq_refl). }
  destruct c; intros H.
  - apply try_except_verdict_inv in H. destruct H as [x [Hx [y Hy]]].
    destruct (Hfloat x Hx) as [r [-> Hr]].
    destruct r as [[] | | | [] m q]; try contradiction; discriminate.
  - apply try_except_verdict_inv in H. destruct H as [x [Hx [y Hy]]].
    destruct (Hfloat x Hx) as [r [-> Hr]].
    destruct r as [[] | | | [] m q]; try contradiction; discriminate.
  - apply check_sentinel_verdict_inv in H.
    destruct H as [x [y [Hx [Hy Hinf]]]].
    unfold decimal_power, decimal_ln in Hx, Hy.
    cbn [decimal_context setup fresh] in Hx, Hy.
    destruct (pow_default_finite base (-1) x ltac:(lia) Hx)
      as [s [co [q [-> [Hs _]]]]].
    rewrite (Hs ltac:(lia)) in Hy.
    destruct (Z.ltb_spec base 0) as [_ | ?]; [| lia].
    cbn [andb Z.odd] in Hy. cbn [PyDecimal.ln] in Hy.
    destruct (co =? 0).
    + injection Hy as <-. discriminate.
    + discriminate.
Qed.

(** X9. With a negative base a cell can only print -1: the logarithm
    of [X ** 0 = 1] is taken, and [X ** -1] is negative, where
    [math.log] and [numpy.log] raise; the third cell is left there by
    [InvalidOperation] unless the power has underflowed to zero. *)
Theorem negative_base_reports_minus_1 (c : backend) (base b : Z) :
  base < 0 ->
  reports (cell (setup fresh) c base) b ->
  b = -1.
Proof.
  intros Hb [fuel [s [Hw Hout]]].
  pose proof (first_iteration_never_stops (setup fresh) c base fuel s Hw) as Hne.
  pose proof (negative_base_stops_at_minus_1 c base Hb) as Hstop.
  assert (Hk : exists k, s = found k /\
             ((1 < k)%nat ->
              match c with
              | Math => probe_at (math_power base)
                                 (try_except Float64.math_log) (-1)
              | Numpy => probe_at (math_power base)
                                  (try_except (numpy_log (setup fresh))) (-1)
              | Dec => probe_at (decimal_power (setup fresh) base)
                                (check_sentinel (decimal_ln (setup fresh))) (-1)
              end = Ok false)).
  { destruct c; cbn [cell] in Hw;
      unfold math_cell, numpy_cell, decimal_cell in Hw;
      change initial with (searching 0) in Hw;
      apply while_done_inv in Hw; destruct Hw as [k [_ [-> [Hgo _]]]];
      exists k; (split; [reflexivity |]); intros Hk1;
      apply (Hgo 1%nat); lia. }
  destruct Hk as [k [-> Hgo]]. cbn [found stdout] in Hout. injection Hout as <-.
  destruct k as [| [| k]]; [contradiction | reflexivity |].
  exfalso. apply Hstop, Hgo. lia.
Qed.

Lemma negative_base_reports_minus_1_witness :
  -10 < 0 /\ reports (cell (setup fresh) Math (-10)) (-1) /\ -1 = -1.
Proof.
  assert (H : reports (cell (setup fresh) Math (-10)) (-1))
    by (exists 2%nat, (found 1); split; vm_compute; reflexivity).
  split; [lia |]. split; [exact H |].
  exact (negative_base_reports_minus_1 Math (-10) (-1) ltac:(lia) H).
Defined.

(** With a base of at least 1 a power of a negative exponent is [+0.0]
    or a positive finite double. *)
Lemma positive_base_power (base e : Z) (x : Float64.pyval) :
  1 <= base -> e < 0 -> math_power base e = Ok x ->
  x = zero \/ exists m q, x = Float64.VFloat (S754_finite false m q).
Proof.
  intros Hb He Hx. unfold math_power in Hx.
  destruct (int_pow_negative base e x ltac:(lia) He Hx)
    as [r [k [-> [Hs [Hinf _]]]]].
  destruct (Z.ltb_spec base 0) as [? | _]; [lia |]. cbn [andb] in Hs.
  destruct r as [s | s | | s m q]; cbn [Float64.signed] in Hs;
    try subst s; try contradiction.
  - left. reflexivity.
  - exfalso. exact (Hinf false eq_refl).
  - right. exists m, q. reflexivity.
Qed.

Lemma positive_base_log (base e : Z) (x : Float64.pyval) (y : logval) :
  1 <= base -> e <= 0 -> math_power base e = Ok x ->
  Float64.math_log x = Ok y \/ Float64.np_log Float64.ActError x = Ok y ->
  y = Fin.
Proof.
  intros Hb He Hx Hy. destruct (Z.eq_dec e 0) as [-> | Hne].
  - unfold math_power in Hx. rewrite int_pow_zero in Hx. injection Hx as <-.
    destruct Hy as [Hy | Hy]; vm_compute in Hy; injection Hy as <-; reflexivity.
  - destruct (positive_base_power base e x Hb ltac:(lia) Hx)
      as [-> | [m [q ->]]]; destruct Hy as [Hy | Hy]; cbn in Hy;
      try discriminate; injection Hy as <-; reflexivity.
Qed.

(** X10. Boundary adjacency for every base of at least 1, in the three
    cells as the notebook runs them: when a cell prints [b], the
    logarithm of [X ** (b + 1)] is returned and finite, and the
    logarithm of [X ** b] raises or is minus infinity. *)
Theorem adjacency_for_any_base (c : backend) (base b : Z) :
  1 <= base ->
  reports (cell (setup fresh) c base) b ->
  cell_log (setup fresh) c base (b + 1) = Ok Fin /\
  cell_fails_at (setup fresh) c base b.
Proof.
  intros Hb [fuel [s [Hw Hout]]].
  pose proof (first_iteration_never_stops (setup fresh) c base fuel s Hw) as Hne.
  destruct c; cbn [cell] in Hw; unfold math_cell, numpy_cell, decimal_cell in Hw;
    change initial with (searching 0) in Hw;
    apply while_done_inv in Hw; destruct Hw as [k [_ [-> [Hgo Hstop]]]];
    cbn [found stdout] in Hout; injection Hout as <-;
    (destruct k as [| k]; [contradiction |]);
    specialize (Hgo k ltac:(lia));
    replace (- Z.of_nat (S k) + 1) with (- Z.of_nat k) by lia;
    cbn [cell_log cell_fails_at]; unfold log_at, fails_at, bind.
  - apply try_except_verdict_inv in Hgo. destruct Hgo as [x [Hx [y Hy]]].
    apply try_except_verdict_inv in Hstop. destruct Hstop as [x' [Hx' [ex Hr]]].
    split.
    + rewrite Hx, Hy. f_equal.
      apply (positive_base_log base (- Z.of_nat k) x y Hb ltac:(lia) Hx).
      left. exact Hy.
    + exists x'. split; [exact Hx' |]. rewrite Hr. reflexivity.
  - apply try_except_verdict_inv in Hgo. destruct Hgo as [x [Hx [y Hy]]].
    apply try_except_verdict_inv in Hstop. destruct Hstop as [x' [Hx' [ex Hr]]].
    split.
    + rewrite Hx, Hy. f_equal.
      apply (positive_base_log base (- Z.of_nat k) x y Hb ltac:(lia) Hx).
      right. exact Hy.
    + exists x'. split; [exact Hx' |]. rewrite Hr. reflexivity.
  - apply check_sentinel_verdict_inv in Hgo.
    destruct Hgo as [x [y [Hx [Hy Hinf]]]].
    apply check_sentinel_verdict_inv in Hstop.
    destruct Hstop as [x' [y' [Hx' [Hy' Hinf']]]].
    split.
    + rewrite Hx, Hy. f_equal.
      unfold decimal_power, decimal_ln in Hx, Hy.
      cbn [decimal_context setup fresh] in Hx, Hy.
      destruct (pow_default_finite base _ x ltac:(lia) Hx)
        as [sg [co [q [-> [Hs1 Hs2]]]]].
      assert (sg = false).
      { destruct (Z.eq_dec (- Z.of_nat k) 0) as [Hz | Hnz].
        - exact (proj1 (Hs2 Hz)).
        - rewrite (Hs1 Hnz). destruct (Z.ltb_spec base 0); [lia | reflexivity]. }
      subst sg. cbn [PyDecimal.ln] in Hy.
      destruct (co =? 0); injection Hy as <-; [discriminate | reflexivity].
    + exists x'. split; [exact Hx' |]. rewrite Hy'. exact Hinf'.
Qed.

Lemma adjacency_for_any_base_witness :
  1 <= 10 /\ reports (cell (setup fresh) Math 10) (-324) /\
  cell_log (setup fresh) Math 10 (-324 + 1) = Ok Fin.
Proof.
  split; [lia |]. split; [exact Claims.math_reports |].
  exact (proj1 (adjacency_for_any_base Math 10 (-324) ltac:(lia)
                  Claims.math_reports)).
Defined.

(** ** The context of the third cell *)






End Extras.
